(** * tutsim: a shallow embedding of [tutorial/tutsim.py]

    The Python program is a small agent based epidemic model.  Its
    state is a set of mutable [Agent] objects referred to from one
    list, two library random generators and the standard output.  The
    embedding keeps exactly that: an object store indexed by object
    identity, the two generator states, and the list of lines printed,
    threaded through a state-and-exception monad. *)

From Stdlib Require Import ZArith Lia Bool.
From Stdlib Require Import Floats.SpecFloat Floats.PrimFloat Floats.FloatOps.
From stdpp Require Import base tactics option list functions numbers.

Local Open Scope Z_scope.

(** ** Python floats

    A Python [float] is an IEEE 754 binary64 number.  The Standard
    Library's [SpecFloat] gives its arithmetic as plain functions on
    [spec_float], with 53 bits of precision and exponent bound 1024. *)

Module PyFloat.

Definition prec : Z := 53.
Definition emax : Z := 1024.

Abbreviation float := spec_float.

Definition add : float -> float -> float := SFadd prec emax.
Definition sub : float -> float -> float := SFsub prec emax.
Definition mul : float -> float -> float := SFmul prec emax.
Definition div : float -> float -> float := SFdiv prec emax.
Definition ltb : float -> float -> bool := SFltb.
Definition leb : float -> float -> bool := SFleb.
Definition eqb : float -> float -> bool := SFeqb.

Definition zero : float := S754_zero false.
Definition one : float := Eval vm_compute in Prim2SF 1%float.

(** [float(n)] for an integer [n], rounded to nearest even.  Python
    raises [OverflowError] for an [n] beyond the largest float; the
    integers converted below are list lengths and loop indices under
    the [int] of a finite float, which stay within it. *)
Definition of_int (n : Z) : float := binary_normalize prec emax n 0 false.

(** The integer part of a finite float, rounded toward zero, as
    [int(x)] computes it. *)
Definition trunc (s : bool) (m : positive) (e : Z) : Z :=
  cond_Zopp s (Z.shiftl (Zpos m) e).

(** The mathematical floor of a finite float. *)
Definition floor (s : bool) (m : positive) (e : Z) : Z :=
  Z.shiftl (cond_Zopp s (Zpos m)) e.

End PyFloat.

Import PyFloat.

(** ** Exceptions and results *)

Inductive exn : Set :=
| ZeroDivisionError
| OverflowError
| ValueError.

Inductive result (A : Type) : Type :=
| Ok (a : A)
| Raise (e : exn).

Arguments Ok {A} a.
Arguments Raise {A} e.

(** [x / y] on floats: Python raises when the divisor compares equal
    to zero (either sign). *)
Definition float_truediv (x y : float) : result float :=
  if eqb y zero then Raise ZeroDivisionError else Ok (div x y).

(** [n / d] on integers.  The operands are list lengths, far below
    2^53, where the conversion to float is exact and the quotient
    is the correctly rounded one. *)
Definition int_truediv (n d : Z) : result float :=
  if d =? 0 then Raise ZeroDivisionError else Ok (div (of_int n) (of_int d)).

(** [int(x)] on a float. *)
Definition int_of_float (x : float) : result Z :=
  match x with
  | S754_nan => Raise ValueError
  | S754_infinity _ => Raise OverflowError
  | S754_zero _ => Ok 0
  | S754_finite s m e => Ok (trunc s m e)
  end.

(** [floor(x)], the rounding the specification names. *)
Definition floor_of_float (x : float) : result Z :=
  match x with
  | S754_nan => Raise ValueError
  | S754_infinity _ => Raise OverflowError
  | S754_zero _ => Ok 0
  | S754_finite s m e => Ok (floor s m e)
  end.

(** ** Module constants *)

Definition YEAR : float := Eval vm_compute in Prim2SF 365.25%float.
Definition MALE : Z := 0.
Definition FEMALE : Z := 1.

(** ** Objects *)

(** Object identity.  Python references never dangle, so the store is
    a total function from identities to objects. *)
Definition ObjId : Set := nat.

Record Agent : Set := mkAgent {
  sex : Z;
  age : float;
  hiv : Z
}.

Definition set_hiv (v : Z) (a : Agent) : Agent :=
  mkAgent (sex a) (age a) v.

Definition set_age (v : float) (a : Agent) : Agent :=
  mkAgent (sex a) v (hiv a).

(** ** The random libraries

    [random] and [numpy.random] are external.  They are taken as an
    interface: a generator state for each, the functions the program
    calls, and the documented range of what those functions return. *)

Class RandomLib : Type := {
  PyGen : Type;
  NpGen : Type;
  (** [random.seed(n)] *)
  random_seed : Z -> PyGen;
  (** [random.random()] *)
  random_random : PyGen -> float * PyGen;
  (** [random.randint(a, b)] *)
  random_randint : Z -> Z -> PyGen -> Z * PyGen;
  (** [random.shuffle(x)] *)
  random_shuffle : list ObjId -> PyGen -> list ObjId * PyGen;
  (** [numpy.random.seed(n)] *)
  numpy_seed : Z -> NpGen;
  (** [numpy.random.geometric(p)] *)
  numpy_geometric : float -> NpGen -> Z * NpGen;
  (** [random()] is in the half-open interval [0.0, 1.0). *)
  random_random_range : forall g,
    leb zero (fst (random_random g)) = true /\
    ltb (fst (random_random g)) one = true;
  (** [randint(a, b)] is an integer N with a <= N <= b. *)
  random_randint_range : forall a b g,
    a <= b -> a <= fst (random_randint a b g) <= b;
  (** [shuffle] reorders its argument. *)
  random_shuffle_perm : forall l g, fst (random_shuffle l g) ≡ₚ l;
  (** The geometric distribution is supported on k = 1, 2, ... *)
  numpy_geometric_pos : forall p g, 1 <= fst (numpy_geometric p g)
}.

(** [random.uniform(a, b)] is [a + (b - a) * random()]. *)
Definition random_uniform `{RandomLib} (a b : float) (g : PyGen)
  : float * PyGen :=
  let '(u, g') := random_random g in (add a (mul (sub b a) u), g').

(** ** What the program prints *)

Inductive Line : Type :=
| ReportLine (date : float) (infected : Z) (prevalence : float)
| DebugLine (hiv_counts : list Z)
| MalesLine (males : Z)
| YoungestLine (youngest : float)
| OldestLine (oldest : float)
| AverageAgeLine (avg_age : float)
| HivLine (i : Z) (count : Z).

(** ** The world and its monad *)

Section Program.

Context `{L : RandomLib}.

Record World : Type := mkWorld {
  heap : ObjId -> Agent;
  next_obj : ObjId;
  py_gen : PyGen;
  np_gen : NpGen;
  stdout : list Line
}.

Definition set_heap (h : ObjId -> Agent) (w : World) : World :=
  mkWorld h (next_obj w) (py_gen w) (np_gen w) (stdout w).

Definition set_py_gen (g : PyGen) (w : World) : World :=
  mkWorld (heap w) (next_obj w) g (np_gen w) (stdout w).

Definition set_np_gen (g : NpGen) (w : World) : World :=
  mkWorld (heap w) (next_obj w) (py_gen w) g (stdout w).

Definition M (A : Type) : Type := World -> result A * World.

Definition ret {A} (a : A) : M A := fun w => (Ok a, w).

Definition raise {A} (e : exn) : M A := fun w => (Raise e, w).

Definition bind {A B} (m : M A) (k : A -> M B) : M B :=
  fun w => match m w with
           | (Ok a, w') => k a w'
           | (Raise e, w') => (Raise e, w')
           end.

Definition lift {A} (r : result A) : M A := fun w => (r, w).

Definition put_line (l : Line) (w : World) : World :=
  mkWorld (heap w) (next_obj w) (py_gen w) (np_gen w) (stdout w ++ [l]).

Definition print (l : Line) : M unit := fun w => (Ok tt, put_line l w).

End Program.

Notation "'do' x <- m ; k" := (bind m (fun x => k))
  (at level 10, x name, m at level 100, k at level 200).
Notation "m ;; k" := (bind m (fun _ => k))
  (at level 100, k at level 200, right associativity).

(** ** The program *)

Section Tutsim.

Context `{L : RandomLib}.

Definition lit_15 : float := Eval vm_compute in Prim2SF 15.0%float.
Definition lit_20 : float := Eval vm_compute in Prim2SF 20.0%float.
(** 0.9, rounded to binary64 as Python reads it. *)
Definition lit_0_9 : float :=
  Eval vm_compute in Prim2SF 0x1.ccccccccccccdp-1%float.

(** [Agent.__init__(self)] *)
Definition Agent_init (self : ObjId) : M unit := fun w =>
  let '(s, g1) := random_randint MALE FEMALE (py_gen w) in
  let '(a, g2) := random_uniform lit_15 lit_20 g1 in
  let '(k, n1) := numpy_geometric lit_0_9 (np_gen w) in
  (Ok tt,
   mkWorld (<[self := mkAgent s a (Z.min (k - 1) 5)]> (heap w))
           (next_obj w) g2 n1 (stdout w)).

(** [Agent()]: a fresh object, then [__init__] on it. *)
Definition Agent_new : M ObjId := fun w =>
  let self := next_obj w in
  match Agent_init self
          (mkWorld (heap w) (S self) (py_gen w) (np_gen w) (stdout w)) with
  | (Ok _, w') => (Ok self, w')
  | (Raise e, w') => (Raise e, w')
  end.

(** [Agent.infection_event(self, prevalence, prob_new_partner,
    force_infection)] *)
Definition infection_event (self : ObjId)
    (prevalence prob_new_partner force_infection : float) : M unit :=
  fun w =>
    if hiv (heap w self) =? 0 then
      let risk_infection :=
        mul (mul force_infection prob_new_partner) prevalence in
      let '(u, g) := random_random (py_gen w) in
      if ltb u risk_infection
      then (Ok tt,
            set_heap (<[self := set_hiv 1 (heap w self)]> (heap w))
                     (set_py_gen g w))
      else (Ok tt, set_py_gen g w)
    else (Ok tt, w).

(** [Agent.age_event(self, time_elapsed)] *)
Definition age_event (self : ObjId) (time_elapsed : float) : M unit :=
  fun w =>
    (Ok tt,
     set_heap (<[self := set_age (add (age (heap w self)) time_elapsed)
                                 (heap w self)]> (heap w)) w).

(** [len(agents)] *)
Definition len {A} (l : list A) : Z := Z.of_nat (length l).

(** [len([a.hiv for a in agents if a.hiv > 0])] *)
Definition infected_count (h : ObjId -> Agent) (agents : list ObjId) : Z :=
  len ((fun a => hiv (h a)) <$> filter (fun a => 0 < hiv (h a)) agents).

(** [report(date, agents)] *)
Definition report (date : float) (agents : list ObjId) : M unit := fun w =>
  let infected := infected_count (heap w) agents in
  (do prevalence <- lift (int_truediv infected (len agents));
   print (ReportLine date infected prevalence)) w.

Record Parameters : Set := mkParameters {
  NUM_YEARS : float;
  TIME_STEP : float;
  START_DATE : float;
  PROB_NEW_PARTNER : float;
  FORCE_INFECTION : float
}.

(** [for x in xs: body] *)
Fixpoint for_each {A} (xs : list A) (body : A -> M unit) : M unit :=
  match xs with
  | [] => ret tt
  | x :: xs' => body x ;; for_each xs' body
  end.

(** [for i in range(start, start + n): body], where the body may
    reorder the list it works on. *)
Fixpoint for_range {S} (n : nat) (i : Z) (body : Z -> S -> M S) (s : S)
  : M S :=
  match n with
  | O => ret s
  | S n' => do s' <- body i s; for_range n' (i + 1) body s'
  end.

(** [random.shuffle(agents)], in place: the new order is returned. *)
Definition shuffle (agents : list ObjId) : M (list ObjId) := fun w =>
  let '(agents', g) := random_shuffle agents (py_gen w) in
  (Ok agents', set_py_gen g w).

(** The inner loop of [simulate]. *)
Definition agent_events (parameters : Parameters) (prevalence : float)
    (agent : ObjId) : M unit :=
  infection_event agent prevalence
                  (PROB_NEW_PARTNER parameters)
                  (FORCE_INFECTION parameters) ;;
  age_event agent (TIME_STEP parameters).

(** The date handed to [report]: [START_DATE + i / YEAR]. *)
Definition report_date (parameters : Parameters) (i : Z) : result float :=
  match float_truediv (of_int i) YEAR with
  | Ok d => Ok (add (START_DATE parameters) d)
  | Raise e => Raise e
  end.

(** The body of the outer loop of [simulate]. *)
Definition simulate_step (parameters : Parameters) (i : Z)
    (agents : list ObjId) : M (list ObjId) :=
  do agents' <- shuffle agents;
  do prevalence <-
    (fun w => lift (int_truediv (infected_count (heap w) agents')
                                (len agents')) w);
  for_each agents' (agent_events parameters prevalence) ;;
  do date <- lift (report_date parameters i);
  report date agents' ;;
  ret agents'.

(** [simulate(agents, parameters)] *)
Definition simulate (agents : list ObjId) (parameters : Parameters)
  : M (list ObjId) :=
  do ratio <- lift (float_truediv (NUM_YEARS parameters)
                                  (TIME_STEP parameters));
  do num_iterations <- lift (int_of_float ratio);
  for_range (Z.to_nat num_iterations) 0 (simulate_step parameters) agents.

(** [sum(xs)]: the running total starts at the integer 0 and the
    items are added from left to right.  (CPython 3.12 and later carry
    a compensation term along; on the empty list, the only case a
    statement below depends on, the result is the integer 0 either
    way.) *)
Definition py_sum (xs : list float) : float := foldl add (of_int 0) xs.

(** [min(xs)] and [max(xs)]: both raise on an empty list. *)
Definition py_min (xs : list float) : result float :=
  match xs with
  | [] => Raise ValueError
  | x :: r => Ok (foldl (fun m y => if ltb y m then y else m) x r)
  end.

Definition py_max (xs : list float) : result float :=
  match xs with
  | [] => Raise ValueError
  | x :: r => Ok (foldl (fun m y => if ltb m y then y else m) x r)
  end.

(** [xs.count(v)] on a list of integers. *)
Definition py_count (v : Z) (xs : list Z) : Z :=
  len (filter (fun x => x = v) xs).

(** [print_verbose_agent_info(agents)] *)
Definition print_verbose_agent_info (agents : list ObjId) : M unit :=
  fun w =>
    let h := heap w in
    let males := py_count MALE ((fun a => sex (h a)) <$> agents) in
    (do avg_age <-
       lift (float_truediv (py_sum ((fun a => age (h a)) <$> agents))
                           (of_int (len agents)));
     do youngest <- lift (py_min ((fun a => age (h a)) <$> agents));
     do oldest <- lift (py_max ((fun a => age (h a)) <$> agents));
     let hiv_counts :=
       (fun i => py_count i ((fun a => hiv (h a)) <$> agents))
         <$> [0; 1; 2; 3; 4; 5] in
     print (DebugLine hiv_counts) ;;
     print (MalesLine males) ;;
     print (YoungestLine youngest) ;;
     print (OldestLine oldest) ;;
     print (AverageAgeLine avg_age) ;;
     for_each [0; 1; 2; 3; 4; 5]
       (fun i => print (HivLine i (nth (Z.to_nat i) hiv_counts 0)))) w.

(** [[Agent() for _ in range(n)]] *)
Fixpoint make_agents (n : nat) : M (list ObjId) :=
  match n with
  | O => ret []
  | S n' => do a <- Agent_new; do r <- make_agents n'; ret (a :: r)
  end.

(** The body of [main], for any parameters and population size. *)
Definition main_with (parameters : Parameters) (size : nat) : M unit :=
  do agents <- make_agents size;
  print_verbose_agent_info agents ;;
  do agents' <- simulate agents parameters;
  print_verbose_agent_info agents'.

Definition lit_2 : float := Eval vm_compute in Prim2SF 2.0%float.
Definition lit_2015 : float := Eval vm_compute in Prim2SF 2015.0%float.
(** 0.022 and 0.1, rounded to binary64 as Python reads them. *)
Definition lit_0_022 : float :=
  Eval vm_compute in Prim2SF 0x1.6872b020c49bap-6%float.
Definition lit_0_1 : float :=
  Eval vm_compute in Prim2SF 0x1.999999999999ap-4%float.

(** [main()] *)
Definition main : M unit :=
  do time_step <- lift (float_truediv one YEAR);
  main_with (mkParameters lit_2 time_step lit_2015 lit_0_022 lit_0_1) 100.

(** The statements at module level: both generators are seeded. *)
Definition seed_generators (n : Z) : M unit := fun w =>
  (Ok tt,
   mkWorld (heap w) (next_obj w) (random_seed n) (numpy_seed n) (stdout w)).

(** Running the file as a script. *)
Definition script : M unit := seed_generators 23 ;; main.

(** The script for any seed, parameters and population size. *)
Definition script_with (seed : Z) (parameters : Parameters) (size : nat)
  : M unit :=
  seed_generators seed ;; main_with parameters size.

(** A process that has just started: no object allocated, nothing
    printed, and generators in whatever state the import of the
    libraries left them. *)
Definition boot (g : PyGen) (n : NpGen) : World :=
  mkWorld (fun _ => mkAgent 0 zero 0) 0%nat g n [].

(** The (date, infected count, prevalence) tuples among the lines
    printed. *)
Definition reports (lines : list Line) : list (float * Z * float) :=
  omap (fun l => match l with
                 | ReportLine date infected prevalence =>
                     Some (date, infected, prevalence)
                 | _ => None
                 end) lines.

End Tutsim.

(** ** A small instance of the library interface

    Generator states are counters.  [random()] alternates between 0.0
    and 0.5, [shuffle] reverses the list, [randint] and [geometric]
    walk through their ranges.  It is used to run the program on
    concrete inputs. *)

Module CounterLib.

Definition lit_0_5 : float := Eval vm_compute in Prim2SF 0.5%float.

Definition random (g : nat) : float * nat :=
  (if Nat.even g then zero else lit_0_5, S g).

Definition randint (a b : Z) (g : nat) : Z * nat :=
  (a + Z.of_nat g mod (Z.max 1 (b - a + 1)), S g).

Definition shuffle_list (l : list ObjId) (g : nat) : list ObjId * nat :=
  (reverse l, S g).

Definition geometric (p : float) (g : nat) : Z * nat :=
  (1 + Z.of_nat g mod 8, S g).

Lemma random_range g :
  leb zero (fst (random g)) = true /\ ltb (fst (random g)) one = true.
Proof. unfold random; simpl; destruct (Nat.even g); split; reflexivity. Qed.

Lemma randint_range a b g : a <= b -> a <= fst (randint a b g) <= b.
Proof.
  intros Hab; unfold randint; simpl.
  pose proof (Z.mod_pos_bound (Z.of_nat g) (Z.max 1 (b - a + 1))); lia.
Qed.

Lemma shuffle_perm l g : fst (shuffle_list l g) ≡ₚ l.
Proof. apply reverse_Permutation. Qed.

Lemma geometric_pos p g : 1 <= fst (geometric p g).
Proof.
  unfold geometric; simpl.
  pose proof (Z.mod_pos_bound (Z.of_nat g) 8); lia.
Qed.

#[export] Instance counter_lib : RandomLib := {|
  PyGen := nat;
  NpGen := nat;
  random_seed := Z.to_nat;
  random_random := random;
  random_randint := randint;
  random_shuffle := shuffle_list;
  numpy_seed := Z.to_nat;
  numpy_geometric := geometric;
  random_random_range := random_range;
  random_randint_range := randint_range;
  random_shuffle_perm := shuffle_perm;
  numpy_geometric_pos := geometric_pos
|}.

End CounterLib.

(** * Properties *)

Section Facts.

Context `{L : RandomLib}.

(** ** The monad *)

Lemma bind_ok {A B} (m : M A) (k : A -> M B) w a w1 :
  m w = (Ok a, w1) -> bind m k w = k a w1.
Proof. intros E; unfold bind; rewrite E; reflexivity. Qed.

Lemma bind_raise {A B} (m : M A) (k : A -> M B) w e w1 :
  m w = (Raise e, w1) -> bind m k w = (Raise e, w1).
Proof. intros E; unfold bind; rewrite E; reflexivity. Qed.

(** A relation between worlds that every statement of a block keeps
    is kept by the block, whether it returns or raises. *)
Section Preservation.

Variable R : World -> World -> Prop.
Hypothesis R_refl : forall w, R w w.
Hypothesis R_trans : forall a b c, R a b -> R b c -> R a c.

Definition preserves {A} (m : M A) : Prop := forall w, R w (snd (m w)).

Lemma preserves_ret {A} (a : A) : preserves (ret a).
Proof. intros w; apply R_refl. Qed.

Lemma preserves_lift {A} (r : result A) : preserves (lift r).
Proof. intros w; apply R_refl. Qed.

Lemma preserves_bind {A B} (m : M A) (k : A -> M B) :
  preserves m -> (forall a, preserves (k a)) -> preserves (bind m k).
Proof.
  intros Hm Hk w; unfold bind.
  specialize (Hm w); destruct (m w) as [[a|e] w1]; simpl in *.
  - eapply R_trans; [exact Hm | apply Hk].
  - exact Hm.
Qed.

Lemma preserves_for_each {A} (xs : list A) (body : A -> M unit) :
  (forall x, preserves (body x)) -> preserves (for_each xs body).
Proof.
  intros Hb; induction xs as [|x xs IH]; simpl.
  - apply preserves_ret.
  - apply preserves_bind; [apply Hb | intros _; exact IH].
Qed.

Lemma preserves_for_range {S} n (body : Z -> S -> M S) :
  (forall i s, preserves (body i s)) ->
  forall i s, preserves (for_range n i body s).
Proof.
  intros Hb; induction n as [|n IH]; intros i s; simpl.
  - apply preserves_ret.
  - apply preserves_bind; [apply Hb | intros s'; apply IH].
Qed.

End Preservation.

(** ** Counting *)

Lemma infected_count_filter h agents :
  infected_count h agents =
  len (filter (fun a => 0 < hiv (h a)) agents).
Proof. unfold infected_count, len; rewrite length_fmap; reflexivity. Qed.

Lemma infected_count_perm h l l' :
  l ≡ₚ l' -> infected_count h l = infected_count h l'.
Proof.
  intros Hp; rewrite !infected_count_filter; unfold len.
  rewrite Hp; reflexivity.
Qed.

Lemma infected_count_nil h : infected_count h [] = 0.
Proof. reflexivity. Qed.

Lemma infected_count_cons h a l :
  infected_count h (a :: l) =
  (if decide (0 < hiv (h a)) then 1 else 0) + infected_count h l.
Proof.
  rewrite !infected_count_filter; unfold len; rewrite filter_cons.
  destruct (decide (0 < hiv (h a))); simpl length; lia.
Qed.

Lemma infected_count_bounds h l : 0 <= infected_count h l <= len l.
Proof.
  rewrite infected_count_filter; unfold len.
  pose proof (length_filter (fun a => 0 < hiv (h a)) l); lia.
Qed.

(** ** Stages only ever move from 0 to 1 *)

Definition stage_step (x y : Z) : Prop := y = x \/ (x = 0 /\ y = 1).

Definition stages_advance (w w' : World) : Prop :=
  forall a, stage_step (hiv (heap w a)) (hiv (heap w' a)).

Definition stages_same (w w' : World) : Prop :=
  forall a, hiv (heap w' a) = hiv (heap w a).

Lemma stages_advance_refl w : stages_advance w w.
Proof. intros a; left; reflexivity. Qed.

Lemma stages_advance_trans a b c :
  stages_advance a b -> stages_advance b c -> stages_advance a c.
Proof.
  intros H1 H2 x; specialize (H1 x); specialize (H2 x).
  unfold stage_step in *; lia.
Qed.

Lemma stages_same_refl w : stages_same w w.
Proof. intros a; reflexivity. Qed.

Lemma stages_same_trans a b c :
  stages_same a b -> stages_same b c -> stages_same a c.
Proof. intros H1 H2 x; rewrite H2; apply H1. Qed.

Lemma stages_same_advance w w' : stages_same w w' -> stages_advance w w'.
Proof. intros H a; left; apply H. Qed.

Lemma stages_advance_count w w' l l' :
  stages_advance w w' -> l ≡ₚ l' ->
  infected_count (heap w) l <= infected_count (heap w') l'.
Proof.
  intros H Hp; rewrite <- (infected_count_perm (heap w') l l' Hp).
  clear Hp; induction l as [|a l IH].
  - reflexivity.
  - rewrite !infected_count_cons; specialize (H a).
    repeat destruct (decide _); unfold stage_step in H; lia.
Qed.

Lemma stages_same_count w w' l l' :
  stages_same w w' -> l ≡ₚ l' ->
  infected_count (heap w) l = infected_count (heap w') l'.
Proof.
  intros H Hp; rewrite <- (infected_count_perm (heap w') l l' Hp).
  clear Hp; induction l as [|a l IH].
  - reflexivity.
  - rewrite !infected_count_cons, (H a), IH; reflexivity.
Qed.

(** ** The two events *)

Definition advance (g : PyGen) : PyGen := snd (random_random g).

(** Everything [infection_event] does, in one place. *)
Lemma infection_event_spec self prevalence pnp fi w :
  exists w',
    infection_event self prevalence pnp fi w = (Ok tt, w') /\
    (forall b, b <> self -> heap w' b = heap w b) /\
    sex (heap w' self) = sex (heap w self) /\
    age (heap w' self) = age (heap w self) /\
    stage_step (hiv (heap w self)) (hiv (heap w' self)) /\
    next_obj w' = next_obj w /\
    np_gen w' = np_gen w /\
    stdout w' = stdout w /\
    py_gen w' =
      (if decide (hiv (heap w self) = 0) then advance (py_gen w)
       else py_gen w).
Proof.
  unfold infection_event, advance.
  destruct (Z.eqb_spec (hiv (heap w self)) 0) as [E|E].
  - destruct (random_random (py_gen w)) as [u g].
    rewrite decide_True by exact E.
    destruct (ltb u _); eexists; (split; [reflexivity|]); simpl;
      repeat split; try reflexivity.
    + intros b Hb; apply fn_lookup_insert_ne; congruence.
    + rewrite fn_lookup_insert; reflexivity.
    + rewrite fn_lookup_insert; reflexivity.
    + rewrite fn_lookup_insert; right; split; [exact E | reflexivity].
    + left; reflexivity.
  - rewrite decide_False by exact E.
    eexists; split; [reflexivity|].
    repeat split; try reflexivity. left; reflexivity.
Qed.

(** An agent that is not at stage 0 is not touched, and neither is
    anything else. *)
Lemma infection_event_infected self prevalence pnp fi w :
  hiv (heap w self) <> 0 ->
  infection_event self prevalence pnp fi w = (Ok tt, w).
Proof.
  intros E; unfold infection_event.
  destruct (Z.eqb_spec (hiv (heap w self)) 0); [contradiction | reflexivity].
Qed.

Lemma age_event_spec self t w :
  exists w',
    age_event self t w = (Ok tt, w') /\
    (forall b, b <> self -> heap w' b = heap w b) /\
    sex (heap w' self) = sex (heap w self) /\
    age (heap w' self) = add (age (heap w self)) t /\
    hiv (heap w' self) = hiv (heap w self) /\
    next_obj w' = next_obj w /\
    np_gen w' = np_gen w /\
    stdout w' = stdout w /\
    py_gen w' = py_gen w.
Proof.
  unfold age_event; eexists; split; [reflexivity|]; simpl.
  repeat split; try (rewrite fn_lookup_insert; reflexivity).
  intros b Hb; apply fn_lookup_insert_ne; congruence.
Qed.

(** The body of the inner loop, for one agent. *)
Lemma agent_events_spec parameters prevalence a w :
  exists w',
    agent_events parameters prevalence a w = (Ok tt, w') /\
    (forall b, b <> a -> heap w' b = heap w b) /\
    sex (heap w' a) = sex (heap w a) /\
    age (heap w' a) = add (age (heap w a)) (TIME_STEP parameters) /\
    stage_step (hiv (heap w a)) (hiv (heap w' a)) /\
    next_obj w' = next_obj w /\
    np_gen w' = np_gen w /\
    stdout w' = stdout w /\
    py_gen w' =
      (if decide (hiv (heap w a) = 0) then advance (py_gen w)
       else py_gen w).
Proof.
  destruct (infection_event_spec a prevalence (PROB_NEW_PARTNER parameters)
              (FORCE_INFECTION parameters) w)
    as (w1 & E1 & F1 & S1 & A1 & H1 & N1 & P1 & O1 & G1).
  destruct (age_event_spec a (TIME_STEP parameters) w1)
    as (w2 & E2 & F2 & S2 & A2 & H2 & N2 & P2 & O2 & G2).
  exists w2; unfold agent_events.
  rewrite (bind_ok _ _ _ _ _ E1).
  split; [exact E2|].
  repeat split; try congruence.
  intros b Hb; rewrite F2, F1; congruence.
Qed.

(** ** The inner loop *)

Definition susceptible_count (h : ObjId -> Agent) (agents : list ObjId)
  : nat :=
  length (filter (fun a => hiv (h a) = 0) agents).

Lemma susceptible_count_ext h h' l :
  (forall a, a ∈ l -> hiv (h' a) = hiv (h a)) ->
  susceptible_count h' l = susceptible_count h l.
Proof.
  unfold susceptible_count; induction l as [|a l IH]; intros H.
  - reflexivity.
  - rewrite !filter_cons, (H a) by (left; reflexivity).
    destruct (decide _); simpl; rewrite IH;
      try reflexivity; intros b Hb; apply H; right; exact Hb.
Qed.

Lemma agents_loop_spec parameters prevalence l : forall w,
  exists w',
    for_each l (agent_events parameters prevalence) w = (Ok tt, w') /\
    (forall b, b ∉ l -> heap w' b = heap w b) /\
    stages_advance w w' /\
    next_obj w' = next_obj w /\
    np_gen w' = np_gen w /\
    stdout w' = stdout w /\
    (NoDup l ->
       (forall a, a ∈ l ->
          age (heap w' a) = add (age (heap w a)) (TIME_STEP parameters)) /\
       py_gen w' =
         Nat.iter (susceptible_count (heap w) l) advance (py_gen w)).
Proof.
  induction l as [|a l IH]; intros w.
  - exists w; simpl; split; [reflexivity|].
    split; [reflexivity|]. split; [apply stages_advance_refl|].
    repeat split; try reflexivity.
    intros b Hb; inversion Hb.
  - destruct (agent_events_spec parameters prevalence a w)
      as (w1 & E1 & F1 & S1 & A1 & H1 & N1 & P1 & O1 & G1).
    destruct (IH w1) as (w2 & E2 & F2 & H2 & N2 & P2 & O2 & D2).
    exists w2; simpl.
    rewrite (bind_ok _ _ _ _ _ E1).
    split; [exact E2|].
    assert (Hadv : stages_advance w w1).
    { intros b; destruct (decide (b = a)) as [->|Hb];
        [exact H1 | left; rewrite F1 by exact Hb; reflexivity]. }
    split.
    { intros b Hb; apply not_elem_of_cons in Hb as [Hba Hbl].
      rewrite F2, F1 by assumption; reflexivity. }
    split; [eapply stages_advance_trans; eassumption|].
    repeat split; try congruence.
    + intros b Hb; apply list.NoDup_cons in H as [Hal Hnd].
      destruct (D2 Hnd) as [Hage _].
      apply elem_of_cons in Hb as [->|Hb].
      * rewrite F2 by exact Hal; exact A1.
      * rewrite Hage by exact Hb.
        rewrite F1 by (intros ->; contradiction); reflexivity.
    + apply list.NoDup_cons in H as [Hal Hnd].
      destruct (D2 Hnd) as [_ Hgen]; rewrite Hgen, G1.
      rewrite (susceptible_count_ext (heap w) (heap w1) l)
        by (intros b Hb; rewrite F1 by (intros ->; contradiction);
            reflexivity).
      unfold susceptible_count at 2; rewrite filter_cons.
      destruct (decide (hiv (heap w a) = 0)); simpl length;
        [|reflexivity].
      fold (susceptible_count (heap w) l).
      rewrite Nat.iter_succ_r; reflexivity.
Qed.

(** ** One step of the simulation *)

(** The fraction of [agents] with a stage above 0 in the store [h]. *)
Definition prevalence_of (h : ObjId -> Agent) (agents : list ObjId)
  : float :=
  div (of_int (infected_count h agents)) (of_int (len agents)).

(** The date of the report of step [i]. *)
Definition date_of (parameters : Parameters) (i : Z) : float :=
  add (START_DATE parameters) (div (of_int i) YEAR).

Lemma report_date_ok parameters i :
  report_date parameters i = Ok (date_of parameters i).
Proof. reflexivity. Qed.

Lemma len_nonempty {A} (l : list A) : l <> [] -> (len l =? 0) = false.
Proof. destruct l; [congruence | intros _; reflexivity]. Qed.

Lemma int_truediv_len h (agents l : list ObjId) :
  l <> [] -> len l = len agents ->
  int_truediv (infected_count h agents) (len l) =
  Ok (prevalence_of h agents).
Proof.
  intros Hne Hlen; unfold int_truediv, prevalence_of.
  rewrite (len_nonempty l Hne), Hlen; reflexivity.
Qed.

Lemma perm_len {A} (l l' : list A) : l ≡ₚ l' -> len l = len l'.
Proof. intros H; unfold len; rewrite H; reflexivity. Qed.

Lemma perm_nonempty {A} (l l' : list A) : l ≡ₚ l' -> l' <> [] -> l <> [].
Proof. intros H Hne ->; apply Hne; symmetry; apply Permutation_nil_l, H. Qed.

Lemma report_nonempty date agents w :
  agents <> [] ->
  report date agents w =
  (Ok tt, put_line (ReportLine date (infected_count (heap w) agents)
                               (prevalence_of (heap w) agents)) w).
Proof.
  intros Hne; unfold report, bind, lift.
  rewrite (int_truediv_len _ agents agents Hne eq_refl); reflexivity.
Qed.

Lemma report_nil date w : report date [] w = (Raise ZeroDivisionError, w).
Proof. reflexivity. Qed.

(** A step on a population that is not empty: the shuffle, the
    prevalence of the untouched store, the inner loop with that value,
    and the report of the store the loop leaves. *)
Lemma simulate_step_nonempty parameters i agents w :
  agents <> [] ->
  exists agents' g w2,
    random_shuffle agents (py_gen w) = (agents', g) /\
    agents' ≡ₚ agents /\
    for_each agents'
      (agent_events parameters (prevalence_of (heap w) agents))
      (set_py_gen g w) = (Ok tt, w2) /\
    simulate_step parameters i agents w =
    (Ok agents',
     put_line (ReportLine (date_of parameters i)
                          (infected_count (heap w2) agents)
                          (prevalence_of (heap w2) agents)) w2).
Proof.
  intros Hne.
  pose proof (random_shuffle_perm agents (py_gen w)) as Hp.
  destruct (random_shuffle agents (py_gen w)) as [agents' g] eqn:Es.
  simpl in Hp.
  pose proof (perm_nonempty _ _ Hp Hne) as Hne'.
  destruct (agents_loop_spec parameters (prevalence_of (heap w) agents)
              agents' (set_py_gen g w)) as (w2 & E2 & _).
  exists agents', g, w2.
  split; [reflexivity|]. split; [exact Hp|]. split; [exact E2|].
  unfold simulate_step, shuffle, bind at 1; rewrite Es.
  unfold bind at 1, lift; simpl heap.
  rewrite (infected_count_perm (heap w) _ _ Hp).
  rewrite (int_truediv_len _ agents agents' Hne' (perm_len _ _ Hp)).
  rewrite (bind_ok _ _ _ _ _ E2).
  unfold bind at 1; rewrite report_date_ok.
  rewrite (bind_ok _ _ _ _ _ (report_nonempty _ _ _ Hne')).
  unfold ret, prevalence_of.
  rewrite (infected_count_perm (heap w2) _ _ Hp), (perm_len _ _ Hp).
  reflexivity.
Qed.

(** A step on the empty population raises at the division, before
    any agent is visited and before anything is printed. *)
Lemma simulate_step_nil parameters i w :
  simulate_step parameters i [] w =
  (Raise ZeroDivisionError,
   set_py_gen (snd (random_shuffle [] (py_gen w))) w).
Proof.
  pose proof (random_shuffle_perm [] (py_gen w)) as Hp.
  destruct (random_shuffle [] (py_gen w)) as [agents' g] eqn:Es.
  simpl in Hp; apply Permutation_nil_r in Hp; subst agents'.
  unfold simulate_step, shuffle, bind at 1; rewrite Es.
  reflexivity.
Qed.

(** ** The outer loop *)

(** The infected counts among the lines printed. *)
Definition reported_count (l : Line) : option Z :=
  match l with
  | ReportLine _ infected _ => Some infected
  | _ => None
  end.

Definition reported_counts (lines : list Line) : list Z :=
  omap reported_count lines.

(** [chain Q x cs y]: [Q] links [x] to the first of [cs], each of [cs]
    to the next, and the last to [y]. *)
Fixpoint chain (Q : Z -> Z -> Prop) (x : Z) (cs : list Z) (y : Z) : Prop :=
  match cs with
  | [] => Q x y
  | c :: cs' => Q x c /\ chain Q c cs' y
  end.

(** [simulate] either raises while computing the number of
    iterations, with the world untouched, or runs the loop. *)
Lemma simulate_unfold agents parameters w :
  simulate agents parameters w =
  match float_truediv (NUM_YEARS parameters) (TIME_STEP parameters) with
  | Raise e => (Raise e, w)
  | Ok ratio =>
      match int_of_float ratio with
      | Raise e => (Raise e, w)
      | Ok n => for_range (Z.to_nat n) 0 (simulate_step parameters) agents w
      end
  end.
Proof.
  unfold simulate, bind, lift.
  destruct (float_truediv _ _) as [ratio|e]; [|reflexivity].
  destruct (int_of_float ratio); reflexivity.
Qed.

Section Loop.

Variable parameters : Parameters.
Variable R : World -> World -> Prop.
Variable Q : Z -> Z -> Prop.
Hypothesis R_trans : forall a b c, R a b -> R b c -> R a c.
Hypothesis R_heap : forall w w', heap w' = heap w -> R w w'.
Hypothesis R_events :
  forall prevalence a, preserves R (agent_events parameters prevalence a).
Hypothesis R_count : forall w w' l l',
  R w w' -> l ≡ₚ l' ->
  Q (infected_count (heap w) l) (infected_count (heap w') l').

Lemma simulate_step_preserves i agents :
  preserves R (simulate_step parameters i agents).
Proof.
  intros w; destruct (decide (agents = [])) as [->|Hne].
  - rewrite simulate_step_nil; apply R_heap; reflexivity.
  - destruct (simulate_step_nonempty parameters i agents w Hne)
      as (agents' & g & w2 & _ & _ & E2 & E).
    rewrite E; simpl.
    apply R_trans with (set_py_gen g w); [apply R_heap; reflexivity|].
    apply R_trans with w2; [|apply R_heap; reflexivity].
    pose proof (preserves_for_each R (fun w => R_heap w w eq_refl) R_trans
                  agents' _ (R_events (prevalence_of (heap w) agents))
                  (set_py_gen g w)) as H.
    rewrite E2 in H; exact H.
Qed.

Lemma simulate_loop_counts n : forall i agents w,
  exists lines,
    let w' := snd (for_range n i (simulate_step parameters) agents w) in
    stdout w' = stdout w ++ lines /\
    R w w' /\
    chain Q (infected_count (heap w) agents) (reported_counts lines)
            (infected_count (heap w') agents).
Proof.
  induction n as [|n IH]; intros i agents w.
  - exists []; simpl; rewrite app_nil_r.
    split; [reflexivity|].
    split; [apply R_heap; reflexivity|].
    apply R_count; [apply R_heap|]; reflexivity.
  - pose proof (simulate_step_preserves i agents w) as HR.
    destruct (decide (agents = [])) as [->|Hne].
    + pose proof (simulate_step_nil parameters i w) as E.
      set (g := snd (random_shuffle [] (py_gen w))) in E.
      exists []; simpl; unfold bind; rewrite E in *; simpl in *.
      rewrite app_nil_r.
      split; [reflexivity|]. split; [exact HR|].
      exact (R_count w (set_py_gen g w) [] [] HR (reflexivity _)).
    + destruct (simulate_step_nonempty parameters i agents w Hne)
        as (agents' & g & w2 & _ & Hp & E2 & E).
      destruct (agents_loop_spec parameters
                  (prevalence_of (heap w) agents) agents' (set_py_gen g w))
        as (w2' & E2' & _ & _ & _ & _ & O2 & _).
      rewrite E2 in E2'; injection E2' as <-.
      rewrite E in HR; simpl in HR.
      set (w1 := put_line _ w2) in *.
      destruct (IH (i + 1) agents' w1) as (lines & Hout & HR' & Hch).
      exists (ReportLine (date_of parameters i)
                         (infected_count (heap w2) agents)
                         (prevalence_of (heap w2) agents) :: lines).
      simpl; unfold bind; rewrite E; fold w1.
      cbv zeta in Hout, HR', Hch.
      split.
      { rewrite Hout; subst w1; simpl; rewrite O2; simpl.
        rewrite <- app_assoc; reflexivity. }
      split; [eapply R_trans; eassumption|].
      split.
      { apply (R_count w w1 agents agents HR); reflexivity. }
      rewrite (infected_count_perm (heap w1) _ _ Hp) in Hch.
      rewrite (infected_count_perm _ _ _ Hp) in Hch.
      exact Hch.
Qed.

Lemma simulate_counts agents w :
  exists lines,
    let w' := snd (simulate agents parameters w) in
    stdout w' = stdout w ++ lines /\
    R w w' /\
    chain Q (infected_count (heap w) agents) (reported_counts lines)
            (infected_count (heap w') agents).
Proof.
  rewrite simulate_unfold.
  assert (Hstay : exists lines : list Line,
            stdout w = stdout w ++ lines /\ R w w /\
            chain Q (infected_count (heap w) agents)
                  (reported_counts lines)
                  (infected_count (heap w) agents)).
  { exists []; rewrite app_nil_r; split; [reflexivity|].
    split; [apply R_heap; reflexivity|].
    apply R_count; [apply R_heap|]; reflexivity. }
  destruct (float_truediv _ _) as [ratio|e]; [|exact Hstay].
  destruct (int_of_float ratio) as [n|e]; [|exact Hstay].
  apply simulate_loop_counts.
Qed.

End Loop.

(** On a population that is not empty every step returns and prints
    one line. *)
Lemma simulate_loop_lines parameters n : forall i agents w,
  agents <> [] ->
  exists agents' w' lines,
    for_range n i (simulate_step parameters) agents w = (Ok agents', w') /\
    agents' ≡ₚ agents /\
    stdout w' = stdout w ++ lines /\
    length lines = n /\
    forall k, (k < n)%nat ->
      exists c pv,
        lines !! k =
        Some (ReportLine (date_of parameters (i + Z.of_nat k)) c pv).
Proof.
  induction n as [|n IH]; intros i agents w Hne.
  - exists agents, w, []; simpl; rewrite app_nil_r.
    repeat split; try reflexivity. intros k Hk; lia.
  - destruct (simulate_step_nonempty parameters i agents w Hne)
      as (agents' & g & w2 & _ & Hp & E2 & E).
    destruct (agents_loop_spec parameters
                (prevalence_of (heap w) agents) agents' (set_py_gen g w))
      as (w2' & E2' & _ & _ & _ & _ & O2 & _).
    rewrite E2 in E2'; injection E2' as <-.
    set (w1 := put_line _ w2) in *.
    destruct (IH (i + 1) agents' w1 (perm_nonempty _ _ Hp Hne))
      as (agents'' & w' & lines & El & Hp' & Hout & Hlen & Hd).
    exists agents'', w',
      (ReportLine (date_of parameters i) (infected_count (heap w2) agents)
                  (prevalence_of (heap w2) agents) :: lines).
    simpl; rewrite (bind_ok _ _ _ _ _ E); fold w1.
    split; [exact El|].
    split; [etransitivity; eassumption|].
    split.
    { rewrite Hout; subst w1; simpl; rewrite O2; simpl.
      rewrite <- app_assoc; reflexivity. }
    split; [rewrite Hlen; reflexivity|].
    intros [|k] Hk.
    + simpl; rewrite Z.add_0_r; do 2 eexists; reflexivity.
    + assert (Hk' : (k < n)%nat) by (clear - Hk; lia).
      destruct (Hd k Hk') as (c & pv & Ek).
      exists c, pv; simpl; rewrite Ek.
      replace (i + Z.of_nat (S k)) with (i + 1 + Z.of_nat k) by lia.
      reflexivity.
Qed.

(** ** The relations the events keep *)

Lemma agent_events_advance parameters prevalence a :
  preserves stages_advance (agent_events parameters prevalence a).
Proof.
  intros w.
  destruct (agent_events_spec parameters prevalence a w)
    as (w1 & E & F & _ & _ & H & _).
  rewrite E; simpl.
  intros b; destruct (decide (b = a)) as [->|Hb];
    [exact H | left; rewrite F by exact Hb; reflexivity].
Qed.

Lemma same_heap_advance w w' : heap w' = heap w -> stages_advance w w'.
Proof. intros E a; rewrite E; left; reflexivity. Qed.

Lemma same_heap_same w w' : heap w' = heap w -> stages_same w w'.
Proof. intros E a; rewrite E; reflexivity. Qed.

Lemma stage_step_bound x y : stage_step x y -> 0 <= x <= 5 -> 0 <= y <= 5.
Proof. unfold stage_step; lia. Qed.

Lemma stage_step_positive x y : stage_step x y -> 0 < x -> 0 < y.
Proof. unfold stage_step; lia. Qed.

(** ** The risk when the force of infection is zero *)

Definition finite (x : float) : Prop :=
  match x with
  | S754_zero _ | S754_finite _ _ _ => True
  | _ => False
  end.

Lemma zero_force_risk fi pnp prevalence :
  eqb fi zero = true ->
  (forall u, leb zero u = true ->
             ltb u (mul (mul fi pnp) prevalence) = false) /\
  (finite pnp -> finite prevalence ->
   eqb (mul (mul fi pnp) prevalence) zero = true).
Proof.
  intros Hfi.
  destruct fi as [s|[]| |[] m e]; try discriminate Hfi.
  split.
  - intros u Hu.
    destruct pnp as [?| | |? ? ?], prevalence as [?| | |? ? ?],
             u as [?|[]| |[] ? ?];
      try discriminate Hu; reflexivity.
  - intros Hp Hv.
    destruct pnp as [?| | |? ? ?], prevalence as [?| | |? ? ?];
      try contradiction; reflexivity.
Qed.

(** With a zero force of infection the event draws, and nothing
    else happens. *)
Lemma infection_event_zero_force self prevalence pnp fi w :
  eqb fi zero = true ->
  infection_event self prevalence pnp fi w =
  (Ok tt,
   if hiv (heap w self) =? 0 then set_py_gen (advance (py_gen w)) w else w).
Proof.
  intros Hfi.
  destruct (zero_force_risk _ pnp prevalence Hfi) as [Hrisk _].
  unfold infection_event, advance.
  destruct (hiv (heap w self) =? 0); [|reflexivity].
  pose proof (random_random_range (py_gen w)) as [Hlo _].
  destruct (random_random (py_gen w)) as [u g]; simpl in Hlo.
  rewrite (Hrisk u Hlo); reflexivity.
Qed.

Lemma agent_events_same parameters prevalence a :
  eqb (FORCE_INFECTION parameters) zero = true ->
  preserves stages_same (agent_events parameters prevalence a).
Proof.
  intros Hfi w; unfold agent_events.
  rewrite (bind_ok _ _ _ _ _
             (infection_event_zero_force a prevalence
                (PROB_NEW_PARTNER parameters) _ w Hfi)).
  set (w1 := if hiv (heap w a) =? 0 then _ else w).
  assert (Hw1 : heap w1 = heap w)
    by (subst w1; destruct (hiv (heap w a) =? 0); reflexivity).
  destruct (age_event_spec a (TIME_STEP parameters) w1)
    as (w2 & E2 & F2 & _ & _ & H2 & _).
  rewrite E2; simpl.
  intros b; destruct (decide (b = a)) as [->|Hb].
  - rewrite H2, Hw1; reflexivity.
  - rewrite F2, Hw1 by exact Hb; reflexivity.
Qed.

Lemma chain_eq x cs y : chain eq x cs y -> Forall (eq x) cs /\ y = x.
Proof.
  revert x; induction cs as [|c cs IH]; simpl; intros x H.
  - split; [constructor | congruence].
  - destruct H as [-> H]; destruct (IH c H) as [Hall ->].
    split; [constructor; [reflexivity | exact Hall] | reflexivity].
Qed.

Lemma chain_le x cs y : chain Z.le x cs y -> x <= y.
Proof.
  revert x; induction cs as [|c cs IH]; simpl; intros x H.
  - exact H.
  - destruct H as [H1 H2]; specialize (IH c H2); lia.
Qed.

End Facts.

(** * The claims *)

(** A call of one of the two event methods on some agent. *)
Inductive event : Type :=
| InfectionEvent (self : ObjId) (prevalence pnp fi : float)
| AgeEvent (self : ObjId) (time_elapsed : float).

Section Claims.

Context `{L : RandomLib}.

Definition run_event (e : event) : M unit :=
  match e with
  | InfectionEvent self prevalence pnp fi =>
      infection_event self prevalence pnp fi
  | AgeEvent self time_elapsed => age_event self time_elapsed
  end.

Lemma run_event_advance e : preserves stages_advance (run_event e).
Proof.
  intros w; destruct e as [self prevalence pnp fi | self t];
    unfold run_event.
  - destruct (infection_event_spec self prevalence pnp fi w)
      as (w1 & E & F & _ & _ & H & _).
    rewrite E; simpl; intros b.
    destruct (decide (b = self)) as [->|Hb];
      [exact H | left; rewrite F by exact Hb; reflexivity].
  - destruct (age_event_spec self t w) as (w1 & E & F & _ & _ & H & _).
    rewrite E; simpl; intros b; left.
    destruct (decide (b = self)) as [->|Hb];
      [exact H | rewrite F by exact Hb; reflexivity].
Qed.

Lemma Agent_new_stage w :
  fst (Agent_new w) = Ok (next_obj w) /\
  hiv (heap (snd (Agent_new w)) (next_obj w)) =
  Z.min (fst (numpy_geometric lit_0_9 (np_gen w)) - 1) 5.
Proof.
  unfold Agent_new, Agent_init, random_uniform; simpl.
  destruct (random_randint MALE FEMALE (py_gen w)) as [s g1].
  destruct (random_random g1) as [u g2].
  destruct (numpy_geometric lit_0_9 (np_gen w)) as [k n1]; simpl.
  rewrite fn_lookup_insert; split; reflexivity.
Qed.

(** C1.  An agent is constructed with stage min(geometric(0.9) - 1, 5),
    which lies between 0 and 5; whatever infection and age events are
    then called, on it or on other agents, every stage either stays or
    moves from 0 to 1, and the agent's stage is still between 0 and 5. *)
Theorem stage_bound (w : World) (evs : list event) :
  let self := next_obj w in
  let w1 := snd (Agent_new w) in
  let w2 := snd (for_each evs run_event w1) in
  fst (Agent_new w) = Ok self /\
  hiv (heap w1 self) =
    Z.min (fst (numpy_geometric lit_0_9 (np_gen w)) - 1) 5 /\
  0 <= hiv (heap w1 self) <= 5 /\
  (forall a, stage_step (hiv (heap w1 a)) (hiv (heap w2 a))) /\
  0 <= hiv (heap w2 self) <= 5.
Proof.
  intros self w1 w2.
  destruct (Agent_new_stage w) as [Hr Hs]; fold self w1 in Hr, Hs.
  pose proof (numpy_geometric_pos lit_0_9 (np_gen w)) as Hk.
  assert (Hb : 0 <= hiv (heap w1 self) <= 5) by lia.
  assert (Hadv : stages_advance w1 w2).
  { apply (preserves_for_each stages_advance stages_advance_refl
             stages_advance_trans evs run_event run_event_advance). }
  repeat split; try assumption; try lia;
    apply (stage_step_bound _ _ (Hadv self) Hb).
Qed.

(** ** What a step decides with *)

(** The fraction of [agents] whose stage is above 0 in the store [h],
    written without the program's own counting functions. *)
Definition infected_fraction (h : ObjId -> Agent) (agents : list ObjId)
  : float :=
  div (of_int (Z.of_nat (length (filter (fun a => 0 < hiv (h a)) agents))))
      (of_int (Z.of_nat (length agents))).

Lemma prevalence_of_fraction h agents :
  prevalence_of h agents = infected_fraction h agents.
Proof.
  unfold prevalence_of, infected_fraction.
  rewrite infected_count_filter; reflexivity.
Qed.

(** The stage [infection_event] leaves: an agent at stage 0 is decided
    by the next draw against the risk, any other agent keeps its
    stage. *)
Definition decided (stage : Z) (u risk : float) : Z :=
  if decide (stage = 0) then (if ltb u risk then 1 else 0) else stage.

Lemma infection_event_decided self prevalence pnp fi w :
  hiv (heap (snd (infection_event self prevalence pnp fi w)) self) =
  decided (hiv (heap w self)) (fst (random_random (py_gen w)))
          (mul (mul fi pnp) prevalence).
Proof.
  unfold infection_event, decided.
  destruct (Z.eqb_spec (hiv (heap w self)) 0) as [E|E].
  - rewrite decide_True by exact E.
    destruct (random_random (py_gen w)) as [u g]; simpl fst.
    destruct (ltb u _); simpl; [rewrite fn_lookup_insert|]; simpl; congruence.
  - rewrite decide_False by exact E; reflexivity.
Qed.

Lemma agent_events_decided parameters prevalence a w :
  hiv (heap (snd (agent_events parameters prevalence a w)) a) =
  decided (hiv (heap w a)) (fst (random_random (py_gen w)))
          (mul (mul (FORCE_INFECTION parameters)
                    (PROB_NEW_PARTNER parameters)) prevalence).
Proof.
  pose proof (infection_event_decided a prevalence
                (PROB_NEW_PARTNER parameters)
                (FORCE_INFECTION parameters) w) as Hd.
  destruct (infection_event_spec a prevalence (PROB_NEW_PARTNER parameters)
              (FORCE_INFECTION parameters) w) as (w1 & E1 & _).
  destruct (age_event_spec a (TIME_STEP parameters) w1)
    as (w2 & E2 & _ & _ & _ & H2 & _).
  unfold agent_events; rewrite (bind_ok _ _ _ _ _ E1), E2.
  rewrite E1 in Hd; simpl in Hd |- *.
  rewrite H2; exact Hd.
Qed.

Lemma for_each_app {A} (l1 l2 : list A) (body : A -> M unit) w w1 :
  for_each l1 body w = (Ok tt, w1) ->
  for_each (l1 ++ l2) body w = for_each l2 body w1.
Proof.
  revert w; induction l1 as [|x l1 IH]; intros w E; simpl in *.
  - unfold ret in E; congruence.
  - unfold bind in *.
    destruct (body x w) as [[[]|e] w0]; [|discriminate E].
    apply IH; exact E.
Qed.

(** In the inner loop, the agent that comes after [l1] is decided by
    the draw that follows one draw for each agent of [l1] that was at
    stage 0, against the risk of the one prevalence the loop was
    given. *)
Lemma agents_loop_position parameters prevalence l1 a l2 w :
  NoDup (l1 ++ a :: l2) ->
  hiv (heap (snd (for_each (l1 ++ a :: l2)
                           (agent_events parameters prevalence) w)) a) =
  decided (hiv (heap w a))
          (fst (random_random
                  (Nat.iter (susceptible_count (heap w) l1) advance
                            (py_gen w))))
          (mul (mul (FORCE_INFECTION parameters)
                    (PROB_NEW_PARTNER parameters)) prevalence).
Proof.
  intros Hnd.
  apply list.NoDup_app in Hnd as (Hnd1 & Hdisj & Hnd2).
  apply list.NoDup_cons in Hnd2 as [Ha2 _].
  assert (Ha1 : a ∉ l1) by (intros Hin; apply (Hdisj a Hin); left).
  destruct (agents_loop_spec parameters prevalence l1 w)
    as (w1 & E1 & F1 & _ & _ & _ & _ & D1).
  destruct (D1 Hnd1) as [_ G1].
  rewrite (for_each_app _ _ _ _ _ E1); simpl for_each.
  pose proof (agent_events_decided parameters prevalence a w1) as Hd.
  destruct (agent_events_spec parameters prevalence a w1)
    as (w2 & E2 & _).
  rewrite (bind_ok _ _ _ _ _ E2).
  destruct (agents_loop_spec parameters prevalence l2 w2)
    as (w3 & E3 & F3 & _).
  rewrite E3; simpl.
  rewrite E2 in Hd; simpl in Hd.
  rewrite (F3 a Ha2), Hd, (F1 a Ha1), G1; reflexivity.
Qed.

(** C2.  In a step on a population that is not empty and lists no
    agent twice, the list is shuffled first; every agent of the
    shuffled list is then decided against the risk computed from one
    prevalence, the infected fraction of the store as it was before
    the step: an agent at stage 0 by the draw that follows the shuffle
    and one draw per stage-0 agent ahead of it, any other agent not at
    all; the step returns the shuffled list and appends one line to the
    output, the report for date START_DATE + i / YEAR with the infected
    count and the infected fraction of the store the step leaves. *)
Theorem prevalence_frozen_per_step (parameters : Parameters) (i : Z)
    (agents : list ObjId) (w : World) :
  agents <> [] ->
  NoDup agents ->
  let shuffled := fst (random_shuffle agents (py_gen w)) in
  let g0 := snd (random_shuffle agents (py_gen w)) in
  let risk :=
    mul (mul (FORCE_INFECTION parameters) (PROB_NEW_PARTNER parameters))
        (infected_fraction (heap w) agents) in
  exists w',
    simulate_step parameters i agents w = (Ok shuffled, w') /\
    (forall l1 a l2,
       shuffled = l1 ++ a :: l2 ->
       hiv (heap w' a) =
       if decide (hiv (heap w a) = 0)
       then (if ltb (fst (random_random
                            (Nat.iter (length (filter
                                         (fun b => hiv (heap w b) = 0) l1))
                                      (fun g => snd (random_random g)) g0)))
                    risk
             then 1 else 0)
       else hiv (heap w a)) /\
    stdout w' =
      stdout w ++
      [ReportLine
         (add (START_DATE parameters) (div (of_int i) YEAR))
         (Z.of_nat (length (filter (fun a => 0 < hiv (heap w' a)) agents)))
         (infected_fraction (heap w') agents)].
Proof.
  intros Hne Hnd shuffled g0 risk.
  destruct (simulate_step_nonempty parameters i agents w Hne)
    as (agents' & g & w2 & Es & Hp & E2 & E).
  assert (Hs : shuffled = agents') by (subst shuffled; rewrite Es; reflexivity).
  assert (Hg : g0 = g) by (subst g0; rewrite Es; reflexivity).
  destruct (agents_loop_spec parameters (prevalence_of (heap w) agents)
              agents' (set_py_gen g w))
    as (w2' & E2' & _ & _ & _ & _ & O2 & _).
  rewrite E2 in E2'; injection E2' as <-.
  eexists; split; [rewrite Hs; exact E|]. split.
  - intros l1 a l2 El; rewrite Hs in El.
    assert (Hnd' : NoDup (l1 ++ a :: l2))
      by (rewrite <- El, Hp; exact Hnd).
    pose proof (agents_loop_position parameters
                  (prevalence_of (heap w) agents) l1 a l2 (set_py_gen g w)
                  Hnd') as Hpos.
    rewrite <- El, E2 in Hpos; simpl in Hpos.
    simpl heap; rewrite Hpos; unfold decided, risk.
    rewrite prevalence_of_fraction, Hg; reflexivity.
  - simpl; rewrite O2; simpl.
    rewrite infected_count_filter, prevalence_of_fraction; reflexivity.
Qed.

(** C5.  Over a whole call of [simulate], an agent whose stage is above
    0 keeps a stage above 0; the infected counts printed, taken in
    order between the count before the call and the count after it,
    never decrease, and the count after the call is at least the count
    before it. *)
Theorem infection_one_way (agents : list ObjId) (parameters : Parameters)
    (w : World) :
  let w' := snd (simulate agents parameters w) in
  (forall a, 0 < hiv (heap w a) -> 0 < hiv (heap w' a)) /\
  (exists lines,
     stdout w' = stdout w ++ lines /\
     chain Z.le (infected_count (heap w) agents) (reported_counts lines)
           (infected_count (heap w') agents)) /\
  infected_count (heap w) agents <= infected_count (heap w') agents.
Proof.
  intros w'.
  destruct (simulate_counts parameters stages_advance Z.le
              stages_advance_trans same_heap_advance
              (agent_events_advance parameters)
              stages_advance_count agents w)
    as (lines & Hout & Hadv & Hch).
  fold w' in Hout, Hadv, Hch.
  split; [|split].
  - intros a; apply stage_step_positive, Hadv.
  - exists lines; split; assumption.
  - exact (chain_le _ _ _ Hch).
Qed.

(** C8.  With a force of infection equal to zero, no draw of [0, 1) is
    below the risk, and the risk compares equal to 0 when the other two
    factors are finite; over a whole call of [simulate] no stage
    changes, every infected count printed is the count before the call,
    and so is the count after it. *)
Theorem zero_force_infection (agents : list ObjId) (parameters : Parameters)
    (w : World) :
  eqb (FORCE_INFECTION parameters) zero = true ->
  let w' := snd (simulate agents parameters w) in
  let risk prevalence :=
    mul (mul (FORCE_INFECTION parameters) (PROB_NEW_PARTNER parameters))
        prevalence in
  (forall prevalence g, ltb (fst (random_random g)) (risk prevalence) = false) /\
  (forall prevalence,
     finite (PROB_NEW_PARTNER parameters) -> finite prevalence ->
     eqb (risk prevalence) zero = true) /\
  (forall a, hiv (heap w' a) = hiv (heap w a)) /\
  (exists lines,
     stdout w' = stdout w ++ lines /\
     Forall (eq (infected_count (heap w) agents)) (reported_counts lines)) /\
  infected_count (heap w') agents = infected_count (heap w) agents.
Proof.
  intros Hfi w' risk.
  destruct (simulate_counts parameters stages_same eq
              stages_same_trans same_heap_same
              (fun prevalence a =>
                 agent_events_same parameters prevalence a Hfi)
              stages_same_count agents w)
    as (lines & Hout & Hsame & Hch).
  fold w' in Hout, Hsame, Hch.
  destruct (chain_eq _ _ _ Hch) as [Hall Hfin].
  split; [|split; [|split; [|split]]].
  - intros prevalence g.
    apply (zero_force_risk _ (PROB_NEW_PARTNER parameters) prevalence Hfi).
    apply random_random_range.
  - intros prevalence.
    apply (zero_force_risk _ (PROB_NEW_PARTNER parameters) prevalence Hfi).
  - exact Hsame.
  - exists lines; split; assumption.
  - exact Hfin.
Qed.

(** ** The population [main] builds *)

(** [make_agents] never raises and returns the fresh identities in
    order, so no agent is listed twice. *)
Lemma make_agents_spec n : forall w,
  exists w',
    make_agents n w = (Ok (seq (next_obj w) n), w') /\
    next_obj w' = (next_obj w + n)%nat /\
    stdout w' = stdout w.
Proof.
  induction n as [|n IH]; intros w.
  - exists w; simpl; rewrite Nat.add_0_r; repeat split.
  - destruct (Agent_new_stage w) as [Hr _].
    destruct (Agent_new w) as [r w1] eqn:E1; simpl in Hr; subst r.
    assert (Hn1 : next_obj w1 = S (next_obj w) /\ stdout w1 = stdout w).
    { revert E1; unfold Agent_new, Agent_init, random_uniform; simpl.
      destruct (random_randint MALE FEMALE (py_gen w)) as [s g1].
      destruct (random_random g1) as [u g2].
      destruct (numpy_geometric lit_0_9 (np_gen w)) as [k n1].
      intros [= <-]; split; reflexivity. }
    destruct Hn1 as [Hn1 Ho1].
    destruct (IH w1) as (w2 & E2 & Hn2 & Ho2).
    exists w2; simpl make_agents.
    rewrite (bind_ok _ _ _ _ _ E1), (bind_ok _ _ _ _ _ E2).
    rewrite Hn1 in *; unfold ret; simpl.
    repeat split; [lia | congruence].
Qed.

Lemma make_agents_nodup n w l w' :
  make_agents n w = (Ok l, w') -> NoDup l /\ length l = n.
Proof.
  destruct (make_agents_spec n w) as (w2 & E & _).
  rewrite E; intros [= <- _]; split; [apply NoDup_seq | apply length_seq].
Qed.

(** ** Ages and draws over a step *)

Lemma susceptible_count_perm h l l' :
  l ≡ₚ l' -> susceptible_count h l = susceptible_count h l'.
Proof. intros Hp; unfold susceptible_count; rewrite Hp; reflexivity. Qed.

(** What a step does to the ages and to the generator, when no agent
    is listed twice. *)
Lemma simulate_step_nodup parameters i agents w :
  NoDup agents ->
  let w' := snd (simulate_step parameters i agents w) in
  (forall a, a ∈ agents ->
     age (heap w' a) = add (age (heap w a)) (TIME_STEP parameters)) /\
  py_gen w' =
    Nat.iter (susceptible_count (heap w) agents) advance
             (snd (random_shuffle agents (py_gen w))).
Proof.
  intros Hnd; destruct (decide (agents = [])) as [->|Hne].
  - rewrite simulate_step_nil; simpl; split; [|reflexivity].
    intros a Ha; inversion Ha.
  - destruct (simulate_step_nonempty parameters i agents w Hne)
      as (agents' & g & w2 & Es & Hp & E2 & E).
    destruct (agents_loop_spec parameters (prevalence_of (heap w) agents)
                agents' (set_py_gen g w))
      as (w2' & E2' & _ & _ & _ & _ & _ & D).
    rewrite E2 in E2'; injection E2' as <-.
    rewrite <- Hp in Hnd; destruct (D Hnd) as [Hage Hgen].
    rewrite E, Es; simpl; split.
    + intros a Ha; rewrite <- Hp in Ha; exact (Hage a Ha).
    + rewrite Hgen; simpl.
      rewrite (susceptible_count_perm _ _ _ Hp); reflexivity.
Qed.

Lemma simulate_loop_age parameters a n : forall i agents w,
  NoDup agents -> a ∈ agents ->
  age (heap (snd (for_range n i (simulate_step parameters) agents w)) a) =
  Nat.iter n (fun x => add x (TIME_STEP parameters)) (age (heap w a)).
Proof.
  induction n as [|n IH]; intros i agents w Hnd Ha; [reflexivity|].
  assert (Hne : agents <> []) by (intros ->; inversion Ha).
  destruct (simulate_step_nodup parameters i agents w Hnd) as [Hage _].
  destruct (simulate_step_nonempty parameters i agents w Hne)
    as (agents' & g & w2 & _ & Hp & _ & E).
  rewrite E in Hage; simpl in Hage.
  simpl for_range; rewrite (bind_ok _ _ _ _ _ E).
  rewrite IH by (rewrite Hp; assumption).
  simpl heap; rewrite (Hage a Ha), Nat.iter_succ_r; reflexivity.
Qed.

(** C9.  When no agent is listed twice, a step leaves every listed
    agent with its age before the step plus the time step (the float
    sum [age_event] computes), [n] steps leave it with that sum taken
    [n] times, and [infection_event] leaves the age alone. *)
Theorem age_advances_by_time_step (parameters : Parameters)
    (agents : list ObjId) (a : ObjId) :
  NoDup agents -> a ∈ agents ->
  (forall i w,
     age (heap (snd (simulate_step parameters i agents w)) a) =
     add (age (heap w a)) (TIME_STEP parameters)) /\
  (forall n i w,
     age (heap (snd (for_range n i (simulate_step parameters) agents w)) a) =
     Nat.iter n (fun x => add x (TIME_STEP parameters)) (age (heap w a))) /\
  (forall prevalence pnp fi w,
     age (heap (snd (infection_event a prevalence pnp fi w)) a) =
     age (heap w a)).
Proof.
  intros Hnd Ha; split; [|split].
  - intros i w.
    destruct (simulate_step_nodup parameters i agents w Hnd) as [Hage _].
    exact (Hage a Ha).
  - intros n i w; apply simulate_loop_age; assumption.
  - intros prevalence pnp fi w.
    destruct (infection_event_spec a prevalence pnp fi w)
      as (w1 & E & _ & _ & Hage & _).
    rewrite E; exact Hage.
Qed.

(** C10.  [infection_event] on an agent whose stage is not 0 returns
    with the world as it was, generator included; and when no agent is
    listed twice, the generator after a step is the generator after the
    shuffle advanced by one [random()] draw for each listed agent that
    was at stage 0. *)
Theorem infected_agent_draws_nothing (parameters : Parameters) (i : Z)
    (agents : list ObjId) (w : World) :
  NoDup agents ->
  (forall self prevalence pnp fi w0,
     hiv (heap w0 self) <> 0 ->
     infection_event self prevalence pnp fi w0 = (Ok tt, w0)) /\
  py_gen (snd (simulate_step parameters i agents w)) =
    Nat.iter (susceptible_count (heap w) agents) advance
             (snd (random_shuffle agents (py_gen w))).
Proof.
  intros Hnd; split.
  - intros self prevalence pnp fi w0; apply infection_event_infected.
  - apply (simulate_step_nodup parameters i agents w Hnd).
Qed.

(** ** The number of iterations *)

Lemma trunc_floor_steps s m e :
  Z.to_nat (trunc s m e) = Z.to_nat (floor s m e).
Proof.
  unfold trunc, floor, cond_Zopp; destruct s; [|reflexivity].
  change (- Zpos m) with (Zneg m).
  pose proof (proj2 (Z.shiftl_nonneg (Zpos m) e) ltac:(lia)).
  assert (~ 0 <= Z.shiftl (Zneg m) e)
    by (rewrite Z.shiftl_nonneg; lia).
  lia.
Qed.

(** C4, as the code has it.  When the ratio of the years to the time
    step is defined and finite, and the population is not empty if
    there is a step to run, [simulate] returns; it runs
    max(0, floor(ratio)) steps, which is also max(0, int(ratio)), and
    prints one report line for each, the k-th dated
    START_DATE + k / YEAR; with no step to run the world is left as it
    was. *)
Theorem simulate_iterations (agents : list ObjId) (parameters : Parameters)
    (w : World) (ratio : float) (n : Z) :
  float_truediv (NUM_YEARS parameters) (TIME_STEP parameters) = Ok ratio ->
  int_of_float ratio = Ok n ->
  (0 < n -> agents <> []) ->
  exists agents' w' lines fl,
    simulate agents parameters w = (Ok agents', w') /\
    floor_of_float ratio = Ok fl /\
    Z.to_nat fl = Z.to_nat n /\
    stdout w' = stdout w ++ lines /\
    length lines = Z.to_nat fl /\
    (forall k, (k < Z.to_nat fl)%nat ->
       exists c pv,
         lines !! k =
         Some (ReportLine
                 (add (START_DATE parameters)
                      (div (of_int (Z.of_nat k)) YEAR)) c pv)) /\
    (n <= 0 -> w' = w /\ agents' = agents).
Proof.
  intros Hr Hn Hne.
  assert (Hfl : exists fl, floor_of_float ratio = Ok fl /\
                           Z.to_nat fl = Z.to_nat n).
  { destruct ratio as [s| | |s m e]; simpl in Hn; try discriminate Hn;
      injection Hn as <-; eexists; (split; [reflexivity|]);
      [reflexivity | symmetry; apply trunc_floor_steps]. }
  destruct Hfl as (fl & Efl & Hfl).
  rewrite simulate_unfold, Hr, Hn.
  destruct (Z.to_nat n) as [|k] eqn:Ek.
  - exists agents, w, [], fl; rewrite Hfl, app_nil_r; simpl.
    repeat split; try assumption; try reflexivity.
    intros j Hj; lia.
  - assert (Hpos : 0 < n) by lia.
    destruct (simulate_loop_lines parameters (S k) 0 agents w (Hne Hpos))
      as (agents' & w' & lines & E & _ & Hout & Hlen & Hd).
    exists agents', w', lines, fl; rewrite Hfl.
    repeat split; try assumption; try lia.
Qed.

(** C6, as the code has it.  An empty population can be built; its
    infected count is 0; [report], a step of [simulate] and
    [print_verbose_agent_info] on it each raise ZeroDivisionError at
    the division by its length, before anything is printed. *)
Theorem empty_population_statistics (parameters : Parameters) (i : Z)
    (date : float) (w : World) :
  make_agents 0 w = (Ok [], w) /\
  infected_count (heap w) [] = 0 /\
  report date [] w = (Raise ZeroDivisionError, w) /\
  print_verbose_agent_info [] w = (Raise ZeroDivisionError, w) /\
  fst (simulate_step parameters i [] w) = Raise ZeroDivisionError /\
  stdout (snd (simulate_step parameters i [] w)) = stdout w.
Proof.
  rewrite simulate_step_nil; repeat split.
Qed.

(** C7, as the code has it.  A time step that compares equal to zero
    makes [simulate] raise ZeroDivisionError before the loop: the world
    is left as it was, with no draw made and nothing printed. *)
Theorem zero_time_step_raises (agents : list ObjId)
    (parameters : Parameters) (w : World) :
  eqb (TIME_STEP parameters) zero = true ->
  simulate agents parameters w = (Raise ZeroDivisionError, w).
Proof.
  intros Hz; rewrite simulate_unfold; unfold float_truediv.
  rewrite Hz; reflexivity.
Qed.

End Claims.

(** * Concrete runs

    The theorems above, applied to a population of two agents with the
    counter instance of the libraries, and the inputs on which the
    program departs from its description. *)

Definition demo_heap : ObjId -> Agent := fun a =>
  match a with
  | 0%nat => mkAgent MALE lit_15 0
  | 1%nat => mkAgent FEMALE lit_20 2
  | _ => mkAgent MALE zero 0
  end.

Definition demo_world : @World CounterLib.counter_lib :=
  @mkWorld CounterLib.counter_lib demo_heap 2%nat 1%nat 0%nat [].

(** Two years in steps of one year. *)
Definition demo_parameters : Parameters :=
  mkParameters lit_2 one lit_2015 lit_0_022 lit_0_1.

Definition lit_minus_1 : float := Eval vm_compute in Prim2SF (-1.0)%float.
Definition lit_0_25 : float := Eval vm_compute in Prim2SF 0.25%float.
(** 2 ^ 1023 *)
Definition lit_huge : float := Eval vm_compute in Prim2SF 0x1p1023%float.

Definition zero_step_parameters : Parameters :=
  mkParameters lit_2 zero lit_2015 lit_0_022 lit_0_1.

Definition negative_step_parameters : Parameters :=
  mkParameters lit_2 lit_minus_1 lit_2015 lit_0_022 lit_0_1.

Definition overflow_parameters : Parameters :=
  mkParameters lit_huge lit_0_25 lit_2015 lit_0_022 lit_0_1.

Definition zero_force_parameters : Parameters :=
  mkParameters lit_2 one lit_2015 lit_0_022 zero.

Example demo_run :
  fst (simulate [0; 1]%nat demo_parameters demo_world) = Ok [0; 1]%nat /\
  reported_counts (stdout (snd (simulate [0; 1]%nat demo_parameters
                                         demo_world))) = [2; 2].
Proof. vm_compute; split; reflexivity. Qed.

(** The step on the two demo agents, read off the theorem: the shuffle
    puts agent 1 first; agent 1, at stage 2, keeps its stage and takes
    no draw; agent 0, at stage 0, is decided by the first draw after
    the shuffle, 0.0, against the risk 0.1 * 0.022 * 0.5, and is
    infected; the line printed reports 2 infected, prevalence 1.0. *)
Lemma prevalence_frozen_per_step_witness :
  [0; 1]%nat <> [] /\
  NoDup [0; 1]%nat /\
  fst (simulate_step demo_parameters 0 [0; 1]%nat demo_world) =
    Ok [1; 0]%nat /\
  hiv (heap (snd (simulate_step demo_parameters 0 [0; 1]%nat demo_world))
            0%nat) = 1 /\
  hiv (heap (snd (simulate_step demo_parameters 0 [0; 1]%nat demo_world))
            1%nat) = 2 /\
  stdout (snd (simulate_step demo_parameters 0 [0; 1]%nat demo_world)) =
    [ReportLine lit_2015 2 one].
Proof.
  assert (Hne : [0; 1]%nat <> []) by discriminate.
  assert (Hnd : NoDup [0; 1]%nat) by compute_done.
  split; [exact Hne|]. split; [exact Hnd|].
  destruct (prevalence_frozen_per_step demo_parameters 0 [0; 1]%nat
              demo_world Hne Hnd) as (w' & E & Hdec & Hout).
  rewrite E; cbn [fst snd].
  assert (H0 : hiv (heap w' 0%nat) = 1)
    by (rewrite (Hdec [1%nat] 0%nat [] eq_refl); vm_compute; reflexivity).
  assert (H1 : hiv (heap w' 1%nat) = 2)
    by (rewrite (Hdec [] 1%nat [0%nat] eq_refl); vm_compute; reflexivity).
  split; [reflexivity|]. split; [exact H0|]. split; [exact H1|].
  rewrite Hout; unfold infected_fraction.
  repeat (rewrite filter_cons_True
            by (first [rewrite H0; lia | rewrite H1; lia])).
  vm_compute; reflexivity.
Defined.

(** In that step agent 0, at stage 0, is reached second and is
    infected: its draw is 0.0, below the risk 0.1 * 0.022 * 0.5. *)
Example demo_step :
  hiv (heap (snd (simulate_step demo_parameters 0 [0; 1]%nat demo_world))
            0%nat) = 1 /\
  reports (stdout (snd (simulate_step demo_parameters 0 [0; 1]%nat
                                      demo_world))) =
    [(lit_2015, 2, one)].
Proof. vm_compute; split; reflexivity. Qed.

Lemma simulate_iterations_witness :
  float_truediv (NUM_YEARS demo_parameters) (TIME_STEP demo_parameters) =
    Ok lit_2 /\
  int_of_float lit_2 = Ok 2 /\
  (0 < 2 -> [0; 1]%nat <> []) /\
  exists agents' w' lines fl,
    simulate [0; 1]%nat demo_parameters demo_world = (Ok agents', w') /\
    floor_of_float lit_2 = Ok fl /\
    Z.to_nat fl = Z.to_nat 2 /\
    stdout w' = stdout demo_world ++ lines /\
    length lines = Z.to_nat fl /\
    (forall k, (k < Z.to_nat fl)%nat ->
       exists c pv,
         lines !! k =
         Some (ReportLine
                 (add (START_DATE demo_parameters)
                      (div (of_int (Z.of_nat k)) YEAR)) c pv)) /\
    (2 <= 0 -> w' = demo_world /\ agents' = [0; 1]%nat).
Proof.
  assert (Hr : float_truediv (NUM_YEARS demo_parameters)
                             (TIME_STEP demo_parameters) = Ok lit_2)
    by reflexivity.
  assert (Hn : int_of_float lit_2 = Ok 2) by reflexivity.
  assert (Hne : 0 < 2 -> [0; 1]%nat <> []) by discriminate.
  split; [exact Hr|]. split; [exact Hn|]. split; [exact Hne|].
  exact (simulate_iterations [0; 1]%nat demo_parameters demo_world
                             lit_2 2 Hr Hn Hne).
Defined.

(** C4 as stated fails: a zero time step raises; on the empty
    population two steps are due (floor(2.0 / 1.0) = 2) and the first
    raises with no line printed; a ratio that overflows raises. *)
Lemma simulate_iterations_counterexample :
  fst (simulate [0; 1]%nat zero_step_parameters demo_world) =
    Raise ZeroDivisionError /\
  (float_truediv (NUM_YEARS demo_parameters) (TIME_STEP demo_parameters) =
     Ok lit_2 /\
   floor_of_float lit_2 = Ok 2 /\
   fst (simulate [] demo_parameters demo_world) = Raise ZeroDivisionError /\
   stdout (snd (simulate [] demo_parameters demo_world)) = []) /\
  fst (simulate [0; 1]%nat overflow_parameters demo_world) =
    Raise OverflowError.
Proof. vm_compute; repeat split. Qed.

(** C6 as stated fails: the empty population is built without
    complaint, its infected count is 0 and nothing raises there, and
    the other statistics raise at the division by zero when they are
    asked for. *)
Lemma empty_population_counterexample :
  make_agents 0 demo_world = (Ok [], demo_world) /\
  infected_count (heap demo_world) [] = 0 /\
  report lit_2015 [] demo_world = (Raise ZeroDivisionError, demo_world) /\
  print_verbose_agent_info [] demo_world =
    (Raise ZeroDivisionError, demo_world).
Proof. repeat split. Qed.

Lemma zero_time_step_raises_witness :
  eqb (TIME_STEP zero_step_parameters) zero = true /\
  simulate [0; 1]%nat zero_step_parameters demo_world =
    (Raise ZeroDivisionError, demo_world).
Proof.
  split; [reflexivity|].
  apply (zero_time_step_raises [0; 1]%nat zero_step_parameters demo_world).
  reflexivity.
Defined.

(** C7 as stated fails: with a time step of -1.0 [simulate] returns
    normally, having run no step and changed nothing. *)
Lemma zero_time_step_counterexample :
  leb (TIME_STEP negative_step_parameters) zero = true /\
  simulate [0; 1]%nat negative_step_parameters demo_world =
    (Ok [0; 1]%nat, demo_world).
Proof. split; reflexivity. Qed.

Lemma zero_force_infection_witness :
  eqb (FORCE_INFECTION zero_force_parameters) zero = true /\
  infected_count
    (heap (snd (simulate [0; 1]%nat zero_force_parameters demo_world)))
    [0; 1]%nat =
  infected_count (heap demo_world) [0; 1]%nat.
Proof.
  split; [reflexivity|].
  apply (zero_force_infection [0; 1]%nat zero_force_parameters demo_world).
  reflexivity.
Defined.

Lemma age_advances_by_time_step_witness :
  NoDup [0; 1]%nat /\ 1%nat ∈ [0; 1]%nat /\
  age (heap (snd (simulate_step demo_parameters 0 [0; 1]%nat demo_world))
            1%nat) =
  add (age (heap demo_world 1%nat)) (TIME_STEP demo_parameters).
Proof.
  assert (Hnd : NoDup [0; 1]%nat) by compute_done.
  assert (Hin : 1%nat ∈ [0; 1]%nat) by compute_done.
  split; [exact Hnd|]. split; [exact Hin|].
  apply (age_advances_by_time_step demo_parameters [0; 1]%nat 1%nat
           Hnd Hin).
Defined.

Lemma infected_agent_draws_nothing_witness :
  NoDup [0; 1]%nat /\
  py_gen (snd (simulate_step demo_parameters 0 [0; 1]%nat demo_world)) =
    Nat.iter (susceptible_count (heap demo_world) [0; 1]%nat) advance
             (snd (random_shuffle [0; 1]%nat (py_gen demo_world))).
Proof.
  assert (Hnd : NoDup [0; 1]%nat) by compute_done.
  split; [exact Hnd|].
  apply (infected_agent_draws_nothing demo_parameters 0 [0; 1]%nat
           demo_world Hnd).
Defined.

(** * Further properties of the program *)

(** ** Converting a length to a float *)

Lemma shr_1_digits s :
  Zdigits2 (shr_m (shr_1 s)) = Z.max 0 (Zdigits2 (shr_m s) - 1).
Proof.
  destruct s as [[|[p|p|]|[p|p|]] r t]; simpl; lia.
Qed.

Lemma shr_1_nonneg s : 0 <= shr_m s -> 0 <= shr_m (shr_1 s).
Proof.
  destruct s as [[|[p|p|]|[p|p|]] r t]; simpl; lia.
Qed.

Lemma iter_shr_1 p : forall s,
  0 <= shr_m s ->
  0 <= shr_m (SpecFloat.iter_pos shr_1 p s) /\
  Zdigits2 (shr_m (SpecFloat.iter_pos shr_1 p s)) =
    Z.max 0 (Zdigits2 (shr_m s) - Zpos p).
Proof.
  induction p as [p IH|p IH|]; intros s Hs; simpl SpecFloat.iter_pos.
  - pose proof (shr_1_nonneg s Hs) as H1.
    pose proof (shr_1_digits s) as D1.
    destruct (IH _ H1) as [H2 D2]; destruct (IH _ H2) as [H3 D3].
    split; [exact H3 | lia].
  - destruct (IH _ Hs) as [H2 D2]; destruct (IH _ H2) as [H3 D3].
    split; [exact H3 | lia].
  - split; [apply shr_1_nonneg, Hs | rewrite shr_1_digits; lia].
Qed.

Lemma digits_positive z : 0 <= z -> 0 < Zdigits2 z -> exists q, z = Zpos q.
Proof. destruct z as [|q|q]; simpl; intros; [lia | eauto | lia]. Qed.

(** Shifting a positive mantissa down to the format keeps it
    positive, as long as the exponent is not below the least one. *)
Lemma shr_fexp_positive m e l :
  SpecFloat.emin prec emax <= e ->
  exists q e',
    shr_fexp prec emax (Zpos m) e l =
      (Build_shr_record (Zpos q) (shr_r (fst (shr_fexp prec emax (Zpos m) e l)))
                        (shr_s (fst (shr_fexp prec emax (Zpos m) e l))), e') /\
    e <= e'.
Proof.
  intros He; unfold shr_fexp, shr.
  assert (Hrec : shr_m (shr_record_of_loc (Zpos m) l) = Zpos m)
    by (destruct l as [|[]]; reflexivity).
  destruct (SpecFloat.fexp prec emax (Zdigits2 (Zpos m) + e) - e) as [|p|p] eqn:Ek.
  - exists m, e; split; [|lia].
    destruct l as [|[]]; reflexivity.
  - destruct (iter_shr_1 p (shr_record_of_loc (Zpos m) l)) as [Hn Hd];
      [rewrite Hrec; lia|].
    rewrite Hrec in Hd.
    destruct (digits_positive _ Hn) as [q Hq].
    { rewrite Hd; revert Ek He; unfold SpecFloat.fexp, SpecFloat.emin, prec, emax; simpl Zdigits2.
      lia. }
    exists q, (e + Zpos p); split; [|lia].
    destruct (SpecFloat.iter_pos shr_1 p _) as [z r t]; simpl in *; subst z.
    reflexivity.
  - exists m, e; split; [|lia].
    destruct l as [|[]]; reflexivity.
Qed.

Lemma binary_round_aux_positive m e l :
  SpecFloat.emin prec emax <= e ->
  (exists q e', binary_round_aux prec emax false (Zpos m) e l =
                S754_finite false q e') \/
  binary_round_aux prec emax false (Zpos m) e l = S754_infinity false.
Proof.
  intros He; unfold binary_round_aux.
  destruct (shr_fexp_positive m e l He) as (q & e1 & E1 & He1).
  rewrite E1; simpl shr_m.
  set (r := loc_of_shr_record _).
  assert (Hr : exists q', round_nearest_even (Zpos q) r = Zpos q').
  { unfold round_nearest_even.
    destruct r as [|[]]; simpl; try destruct q; eexists; reflexivity. }
  destruct Hr as [q' ->].
  destruct (shr_fexp_positive q' e1 loc_Exact ltac:(lia))
    as (q2 & e2 & E2 & He2).
  rewrite E2; simpl shr_m.
  destruct (e2 <=? emax - prec); [left; eauto | right; reflexivity].
Qed.

(** The float of a positive integer is a positive number or, beyond
    the largest float, plus infinity; in particular it is not zero. *)
Lemma of_int_positive n :
  0 < n ->
  (exists q e, of_int n = S754_finite false q e) \/
  of_int n = S754_infinity false.
Proof.
  destruct n as [|m|m]; try lia; intros _.
  unfold of_int, binary_normalize, binary_round, shl_align.
  destruct (SpecFloat.fexp prec emax (Zpos (digits2_pos m) + 0) - 0) as [|d|d] eqn:Ed;
    apply binary_round_aux_positive;
    revert Ed; unfold SpecFloat.fexp, SpecFloat.emin, prec, emax; lia.
Qed.

Lemma of_int_nonzero n : 0 < n -> eqb (of_int n) zero = false.
Proof.
  intros Hn; destruct (of_int_positive n Hn) as [(q & e & ->)| ->];
    reflexivity.
Qed.

(** ** The order on floats *)

Definition is_nan (x : float) : bool :=
  match x with S754_nan => true | _ => false end.

Ltac pos_case a b :=
  let X := fresh in
  pose proof (Pos.compare_spec a b) as X; unfold Pos.compare in X;
  destruct X.

Ltac order_cases :=
  repeat match goal with
  | |- context [Z.compare ?a ?b] =>
      destruct (Z.compare_spec a b); simpl; try lia; try congruence
  | H : context [Z.compare ?a ?b] |- _ =>
      destruct (Z.compare_spec a b); simpl in H; try lia; try congruence
  | |- context [Pos.compare_cont Eq ?a ?b] =>
      pos_case a b; simpl; try lia; try congruence
  | H : context [Pos.compare_cont Eq ?a ?b] |- _ =>
      pos_case a b; simpl in H; try lia; try congruence
  end.

Lemma leb_trans a b c : leb a b = true -> leb b c = true -> leb a c = true.
Proof.
  unfold leb, SFleb, SFcompare.
  destruct a as [?|[]| |[] ma ea], b as [?|[]| |[] mb eb],
           c as [?|[]| |[] mc ec];
    simpl; try congruence; intros H1 H2; order_cases.
Qed.

Lemma ltb_leb_trans a b c : ltb a b = true -> leb b c = true -> ltb a c = true.
Proof.
  unfold ltb, leb, SFltb, SFleb, SFcompare.
  destruct a as [?|[]| |[] ma ea], b as [?|[]| |[] mb eb],
           c as [?|[]| |[] mc ec];
    simpl; try congruence; intros H1 H2; order_cases.
Qed.

Lemma ltb_leb a b : ltb a b = true -> leb a b = true.
Proof.
  unfold ltb, leb, SFltb, SFleb.
  destruct (SFcompare a b) as [[]|]; congruence.
Qed.

Lemma leb_total a b :
  is_nan a = false -> is_nan b = false -> ltb a b = false -> leb b a = true.
Proof.
  unfold ltb, leb, SFltb, SFleb, SFcompare.
  destruct a as [?|[]| |[] ma ea], b as [?|[]| |[] mb eb];
    simpl; try congruence; intros _ _ H1; order_cases.
Qed.

Lemma leb_refl a : is_nan a = false -> leb a a = true.
Proof.
  unfold leb, SFleb, SFcompare.
  destruct a as [?|[]| |[] ma ea]; simpl; try congruence;
    order_cases.
Qed.

Section Beyond.

Context `{L : RandomLib}.

(** ** What [simulate] leaves alone *)

(** The objects outside [agents], the sex of every agent, the numpy
    generator and the allocator are as they were. *)
Definition untouched (agents : list ObjId) (w w' : World) : Prop :=
  (forall b, b ∉ agents -> heap w' b = heap w b) /\
  (forall b, sex (heap w' b) = sex (heap w b)) /\
  np_gen w' = np_gen w /\
  next_obj w' = next_obj w.

(** A report line for a population of [size] agents: a count between 0
    and [size], and that count over [size] as the prevalence. *)
Definition report_of_size (size : Z) (l : Line) : Prop :=
  exists date infected,
    l = ReportLine date infected (div (of_int infected) (of_int size)) /\
    0 <= infected <= size.

Lemma untouched_refl agents w : untouched agents w w.
Proof. repeat split. Qed.

Lemma untouched_trans agents agents' a b c :
  agents' ≡ₚ agents ->
  untouched agents a b -> untouched agents' b c -> untouched agents a c.
Proof.
  intros Hp (F1 & S1 & N1 & O1) (F2 & S2 & N2 & O2).
  split; [|split; [|split]]; try congruence.
  intros x Hx; rewrite F2, F1; [reflexivity | exact Hx |].
  rewrite Hp; exact Hx.
Qed.

Lemma agent_events_sex parameters prevalence a :
  preserves (fun w w' => forall b, sex (heap w' b) = sex (heap w b))
            (agent_events parameters prevalence a).
Proof.
  intros w.
  destruct (agent_events_spec parameters prevalence a w)
    as (w1 & E & F & S & _).
  rewrite E; simpl; intros b.
  destruct (decide (b = a)) as [->|Hb];
    [exact S | rewrite F by exact Hb; reflexivity].
Qed.

(** One step, whether it returns or raises. *)
Lemma simulate_step_summary parameters i agents w :
  let res := simulate_step parameters i agents w in
  untouched agents w (snd res) /\
  (forall agents', fst res = Ok agents' -> agents' ≡ₚ agents) /\
  exists lines,
    stdout (snd res) = stdout w ++ lines /\
    Forall (report_of_size (len agents)) lines.
Proof.
  destruct (decide (agents = [])) as [->|Hne].
  - rewrite simulate_step_nil; simpl.
    split; [repeat split|]. split; [discriminate|].
    exists []; rewrite app_nil_r; split; [reflexivity | constructor].
  - destruct (simulate_step_nonempty parameters i agents w Hne)
      as (agents' & g & w2 & _ & Hp & E2 & E).
    destruct (agents_loop_spec parameters (prevalence_of (heap w) agents)
                agents' (set_py_gen g w))
      as (w2' & E2' & F & _ & N & P & O & _).
    rewrite E2 in E2'; injection E2' as <-.
    pose proof (preserves_for_each _ (fun w => fun b => eq_refl)
                  (fun a b c H1 H2 x => eq_trans (H2 x) (H1 x))
                  agents' _ (agent_events_sex parameters
                               (prevalence_of (heap w) agents))
                  (set_py_gen g w)) as S.
    rewrite E2 in S; simpl in S, F, N, P, O.
    rewrite E; simpl; split; [|split].
    + repeat split; try assumption.
      intros b Hb; apply F; rewrite Hp; exact Hb.
    + intros x [= <-]; exact Hp.
    + eexists [_]; rewrite O; split; [reflexivity|].
      constructor; [|constructor].
      eexists _, _; split; [reflexivity | apply infected_count_bounds].
Qed.

Lemma simulate_loop_summary parameters n : forall i agents w,
  let res := for_range n i (simulate_step parameters) agents w in
  untouched agents w (snd res) /\
  (forall agents', fst res = Ok agents' -> agents' ≡ₚ agents) /\
  exists lines,
    stdout (snd res) = stdout w ++ lines /\
    Forall (report_of_size (len agents)) lines.
Proof.
  induction n as [|n IH]; intros i agents w.
  - simpl; split; [apply untouched_refl|].
    split; [intros x [= <-]; reflexivity|].
    exists []; rewrite app_nil_r; split; [reflexivity | constructor].
  - destruct (simulate_step_summary parameters i agents w)
      as (U1 & P1 & lines1 & O1 & R1).
    simpl for_range; unfold bind.
    destruct (simulate_step parameters i agents w) as [[agents1|e] w1];
      simpl in U1, P1, O1.
    + specialize (P1 agents1 eq_refl).
      destruct (IH (i + 1) agents1 w1) as (U2 & P2 & lines2 & O2 & R2).
      split; [exact (untouched_trans _ _ _ _ _ P1 U1 U2)|].
      split; [intros x Hx; rewrite (P2 x Hx); exact P1|].
      exists (lines1 ++ lines2); rewrite O2, O1, app_assoc.
      split; [reflexivity|].
      apply Forall_app; split; [exact R1|].
      rewrite <- (perm_len _ _ P1); exact R2.
    + simpl; split; [exact U1|]. split; [discriminate|].
      exists lines1; split; assumption.
Qed.

Lemma simulate_summary parameters agents w :
  let res := simulate agents parameters w in
  untouched agents w (snd res) /\
  (forall agents', fst res = Ok agents' -> agents' ≡ₚ agents) /\
  exists lines,
    stdout (snd res) = stdout w ++ lines /\
    Forall (report_of_size (len agents)) lines.
Proof.
  rewrite simulate_unfold.
  assert (Hstay : forall e : exn,
            let res := (@Raise (list ObjId) e, w) in
            untouched agents w (snd res) /\
            (forall agents', fst res = Ok agents' -> agents' ≡ₚ agents) /\
            exists lines,
              stdout (snd res) = stdout w ++ lines /\
              Forall (report_of_size (len agents)) lines).
  { intros e; simpl; split; [apply untouched_refl|].
    split; [discriminate|].
    exists []; rewrite app_nil_r; split; [reflexivity | constructor]. }
  destruct (float_truediv _ _) as [ratio|e]; [|apply Hstay].
  destruct (int_of_float ratio) as [n|e]; [|apply Hstay].
  apply simulate_loop_summary.
Qed.

(** X1.  When [simulate] returns, the list it leaves is the list it
    was given in some order: no agent is added, lost or repeated, and
    the population size is what it was. *)
Theorem simulate_reorders_population (agents agents' : list ObjId)
    (parameters : Parameters) (w w' : World) :
  simulate agents parameters w = (Ok agents', w') ->
  agents' ≡ₚ agents /\ length agents' = length agents.
Proof.
  intros E.
  destruct (simulate_summary parameters agents w) as (_ & P & _).
  rewrite E in P; specialize (P agents' eq_refl).
  split; [exact P | rewrite P; reflexivity].
Qed.

(** X2.  Whatever [simulate] does, returning or raising, the lines it
    adds to the output are all report lines; each carries an infected
    count between 0 and the population size, and as prevalence that
    count divided by the population size. *)
Theorem simulate_prints_reports (agents : list ObjId)
    (parameters : Parameters) (w : World) :
  exists lines,
    stdout (snd (simulate agents parameters w)) = stdout w ++ lines /\
    Forall (report_of_size (len agents)) lines.
Proof. apply (simulate_summary parameters agents w). Qed.

(** X3.  Whatever [simulate] does, returning or raising, objects that
    are not in the list are left as they were, no agent changes sex,
    no draw is taken from the numpy generator and no object is
    allocated. *)
Theorem simulate_frame (agents : list ObjId) (parameters : Parameters)
    (w : World) :
  let w' := snd (simulate agents parameters w) in
  (forall b, b ∉ agents -> heap w' b = heap w b) /\
  (forall b, sex (heap w' b) = sex (heap w b)) /\
  np_gen w' = np_gen w /\
  next_obj w' = next_obj w.
Proof. apply (simulate_summary parameters agents w). Qed.

(** X4.  Whatever [simulate] does, an agent whose stage is not 0 ends
    with exactly the stage it had (there is no progression and no
    recovery), and an agent at stage 0 ends at stage 0 or 1. *)
Theorem simulate_no_progression (agents : list ObjId)
    (parameters : Parameters) (w : World) (a : ObjId) :
  let w' := snd (simulate agents parameters w) in
  (hiv (heap w a) <> 0 -> hiv (heap w' a) = hiv (heap w a)) /\
  (hiv (heap w a) = 0 -> hiv (heap w' a) = 0 \/ hiv (heap w' a) = 1).
Proof.
  intros w'.
  destruct (simulate_counts parameters stages_advance Z.le
              stages_advance_trans same_heap_advance
              (agent_events_advance parameters)
              stages_advance_count agents w)
    as (lines & _ & Hadv & _).
  fold w' in Hadv; specialize (Hadv a); unfold stage_step in Hadv.
  split; intros H; lia.
Qed.

(** ** A risk no draw is below *)

Definition harmless (risk : float) : Prop :=
  forall u, leb zero u = true -> ltb u risk = false.

Lemma infection_event_harmless self prevalence pnp fi w :
  harmless (mul (mul fi pnp) prevalence) ->
  infection_event self prevalence pnp fi w =
  (Ok tt,
   if hiv (heap w self) =? 0 then set_py_gen (advance (py_gen w)) w else w).
Proof.
  intros Hrisk; unfold infection_event, advance.
  destruct (hiv (heap w self) =? 0); [|reflexivity].
  pose proof (random_random_range (py_gen w)) as [Hlo _].
  destruct (random_random (py_gen w)) as [u g]; simpl in Hlo.
  rewrite (Hrisk u Hlo); reflexivity.
Qed.

Lemma agent_events_harmless parameters prevalence a :
  harmless (mul (mul (FORCE_INFECTION parameters)
                     (PROB_NEW_PARTNER parameters)) prevalence) ->
  preserves stages_same (agent_events parameters prevalence a).
Proof.
  intros Hrisk w; unfold agent_events.
  rewrite (bind_ok _ _ _ _ _
             (infection_event_harmless a prevalence _ _ w Hrisk)).
  set (w1 := if hiv (heap w a) =? 0 then _ else w).
  assert (Hw1 : heap w1 = heap w)
    by (subst w1; destruct (hiv (heap w a) =? 0); reflexivity).
  destruct (age_event_spec a (TIME_STEP parameters) w1)
    as (w2 & E2 & F2 & _ & _ & H2 & _).
  rewrite E2; simpl.
  intros b; destruct (decide (b = a)) as [->|Hb].
  - rewrite H2, Hw1; reflexivity.
  - rewrite F2, Hw1 by exact Hb; reflexivity.
Qed.

(** With nobody infected the prevalence is a zero (or a NaN), and so
    is the risk, whatever the two other factors are. *)
Lemma no_infected_harmless x h agents :
  infected_count h agents = 0 -> harmless (mul x (prevalence_of h agents)).
Proof.
  intros Hc u Hu; unfold prevalence_of; rewrite Hc.
  change (of_int 0) with (S754_zero false).
  destruct (of_int (len agents)) as [?| | |? ? ?], x as [?| | |? ? ?],
           u as [?|[]| |[] ? ?];
    try discriminate Hu; reflexivity.
Qed.

Lemma simulate_step_no_infected parameters i agents w :
  infected_count (heap w) agents = 0 ->
  stages_same w (snd (simulate_step parameters i agents w)).
Proof.
  intros Hc; destruct (decide (agents = [])) as [->|Hne].
  - rewrite simulate_step_nil; apply same_heap_same; reflexivity.
  - destruct (simulate_step_nonempty parameters i agents w Hne)
      as (agents' & g & w2 & _ & _ & E2 & E).
    rewrite E; simpl.
    pose proof (preserves_for_each stages_same stages_same_refl
                  stages_same_trans agents' _
                  (fun a => agent_events_harmless parameters _ a
                              (no_infected_harmless _ _ _ Hc))
                  (set_py_gen g w)) as H.
    rewrite E2 in H; exact H.
Qed.

Lemma simulate_loop_no_infected parameters n : forall i agents w,
  infected_count (heap w) agents = 0 ->
  let w' := snd (for_range n i (simulate_step parameters) agents w) in
  stages_same w w' /\
  exists lines,
    stdout w' = stdout w ++ lines /\
    Forall (eq 0) (reported_counts lines).
Proof.
  induction n as [|n IH]; intros i agents w Hc.
  - simpl; split; [apply stages_same_refl|].
    exists []; rewrite app_nil_r; split; [reflexivity | constructor].
  - pose proof (simulate_step_no_infected parameters i agents w Hc) as S1.
    destruct (decide (agents = [])) as [->|Hne].
    + simpl for_range; unfold bind.
      rewrite simulate_step_nil in *; simpl in *.
      split; [exact S1|].
      exists []; rewrite app_nil_r; split; [reflexivity | constructor].
    + destruct (simulate_step_nonempty parameters i agents w Hne)
        as (agents' & g & w2 & _ & Hp & E2 & E).
      destruct (agents_loop_spec parameters
                  (prevalence_of (heap w) agents) agents' (set_py_gen g w))
        as (w2' & E2' & _ & _ & _ & _ & O2 & _).
      rewrite E2 in E2'; injection E2' as <-.
      rewrite E in S1; simpl in S1.
      set (w1 := put_line _ w2) in *.
      assert (Hc1 : infected_count (heap w1) agents' = 0).
      { rewrite <- (stages_same_count w w1 agents agents' S1);
          [exact Hc | symmetry; exact Hp]. }
      destruct (IH (i + 1) agents' w1 Hc1) as (S2 & lines & Hout & Hall).
      simpl for_range; rewrite (bind_ok _ _ _ _ _ E); fold w1.
      split; [eapply stages_same_trans; eassumption|].
      exists (ReportLine (date_of parameters i)
                         (infected_count (heap w2) agents)
                         (prevalence_of (heap w2) agents) :: lines).
      split.
      { rewrite Hout; subst w1; simpl; rewrite O2; simpl.
        rewrite <- app_assoc; reflexivity. }
      simpl; constructor; [|exact Hall].
      rewrite (infected_count_perm _ _ _ Hp) in Hc1.
      symmetry; exact Hc1.
Qed.

(** X5.  When no listed agent is infected at the start, [simulate]
    infects nobody, whatever the parameters and the draws: no stage
    changes and every infected count printed is 0. *)
Theorem simulate_no_source_no_infection (agents : list ObjId)
    (parameters : Parameters) (w : World) :
  infected_count (heap w) agents = 0 ->
  let w' := snd (simulate agents parameters w) in
  (forall a, hiv (heap w' a) = hiv (heap w a)) /\
  exists lines,
    stdout w' = stdout w ++ lines /\
    Forall (eq 0) (reported_counts lines).
Proof.
  intros Hc; rewrite simulate_unfold.
  assert (Hstay : forall e : exn,
            let w' := snd (@Raise (list ObjId) e, w) in
            (forall a, hiv (heap w' a) = hiv (heap w a)) /\
            exists lines,
              stdout w' = stdout w ++ lines /\
              Forall (eq 0) (reported_counts lines)).
  { intros e; simpl; split; [reflexivity|].
    exists []; rewrite app_nil_r; split; [reflexivity | constructor]. }
  destruct (float_truediv _ _) as [ratio|e]; [|apply Hstay].
  destruct (int_of_float ratio) as [n|e]; [|apply Hstay].
  apply (simulate_loop_no_infected parameters (Z.to_nat n) 0 agents w Hc).
Qed.

(** ** A risk of one or more *)

Lemma infection_event_certain self prevalence pnp fi w :
  leb one (mul (mul fi pnp) prevalence) = true ->
  hiv (heap w self) = 0 ->
  hiv (heap (snd (infection_event self prevalence pnp fi w)) self) = 1.
Proof.
  intros Hrisk Hs; unfold infection_event.
  rewrite Hs; simpl.
  pose proof (random_random_range (py_gen w)) as [_ Hhi].
  destruct (random_random (py_gen w)) as [u g]; simpl in Hhi.
  rewrite (ltb_leb_trans _ _ _ Hhi Hrisk); simpl.
  rewrite fn_lookup_insert; reflexivity.
Qed.

(** The stage an agent ends a step with when infection is certain. *)
Definition exposed (stage : Z) : Z := if decide (stage = 0) then 1 else stage.

Lemma agents_loop_certain parameters prevalence l : forall w,
  leb one (mul (mul (FORCE_INFECTION parameters)
                    (PROB_NEW_PARTNER parameters)) prevalence) = true ->
  forall a, a ∈ l ->
    hiv (heap (snd (for_each l (agent_events parameters prevalence) w)) a) =
    exposed (hiv (heap w a)).
Proof.
  induction l as [|a0 l IH]; intros w Hrisk a Ha; [inversion Ha|].
  destruct (agent_events_spec parameters prevalence a0 w)
    as (w1 & E1 & F1 & _ & _ & H1 & _).
  assert (H0 : hiv (heap w1 a0) = exposed (hiv (heap w a0))).
  { unfold exposed; destruct (decide (hiv (heap w a0) = 0)) as [Hz|Hz].
    - pose proof (infection_event_certain a0 prevalence _ _ w Hrisk Hz) as Hc.
      revert E1; unfold agent_events.
      destruct (infection_event_spec a0 prevalence
                  (PROB_NEW_PARTNER parameters)
                  (FORCE_INFECTION parameters) w) as (wi & Ei & _).
      rewrite Ei in Hc; simpl in Hc.
      rewrite (bind_ok _ _ _ _ _ Ei).
      destruct (age_event_spec a0 (TIME_STEP parameters) wi)
        as (wa & Ea & _ & _ & _ & Ha' & _).
      rewrite Ea; intros [= <-]; rewrite Ha'; exact Hc.
    - unfold stage_step in H1; lia. }
  simpl for_each; rewrite (bind_ok _ _ _ _ _ E1).
  destruct (agents_loop_spec parameters prevalence l w1)
    as (w2 & E2 & _ & Hadv & _).
  destruct (decide (a = a0)) as [->|Hne].
  - rewrite E2; simpl.
    specialize (Hadv a0); unfold stage_step in Hadv.
    rewrite H0 in Hadv; unfold exposed in *.
    destruct (decide (hiv (heap w a0) = 0)); lia.
  - apply elem_of_cons in Ha as [?|Ha]; [contradiction|].
    rewrite (IH w1 Hrisk a Ha), F1 by exact Hne; reflexivity.
Qed.

(** X6.  When the risk computed from the prevalence at the start of a
    step is at least 1, the step infects every listed agent that was at
    stage 0 and leaves the stage of the others: the risk is not capped,
    and a draw, being below 1, is below it. *)
Theorem step_certain_infection (parameters : Parameters) (i : Z)
    (agents : list ObjId) (w : World) (a : ObjId) :
  leb one (mul (mul (FORCE_INFECTION parameters)
                    (PROB_NEW_PARTNER parameters))
               (prevalence_of (heap w) agents)) = true ->
  a ∈ agents ->
  hiv (heap (snd (simulate_step parameters i agents w)) a) =
  (if decide (hiv (heap w a) = 0) then 1 else hiv (heap w a)).
Proof.
  intros Hrisk Ha.
  assert (Hne : agents <> []) by (intros ->; inversion Ha).
  destruct (simulate_step_nonempty parameters i agents w Hne)
    as (agents' & g & w2 & _ & Hp & E2 & E).
  rewrite E; simpl heap.
  rewrite <- Hp in Ha.
  pose proof (agents_loop_certain parameters _ agents' (set_py_gen g w)
                Hrisk a Ha) as H.
  rewrite E2 in H; exact H.
Qed.

(** ** The diagnostic block *)

Definition ages (h : ObjId -> Agent) (agents : list ObjId) : list float :=
  (fun a => age (h a)) <$> agents.

(** [hiv_counts] in [print_verbose_agent_info]. *)
Definition stage_counts (h : ObjId -> Agent) (agents : list ObjId)
  : list Z :=
  (fun i => py_count i ((fun a => hiv (h a)) <$> agents))
    <$> [0; 1; 2; 3; 4; 5].

(** The lines of one diagnostic block, in the order of the [print]
    calls. *)
Definition verbose_lines (h : ObjId -> Agent) (agents : list ObjId)
    (youngest oldest : float) : list Line :=
  [ DebugLine (stage_counts h agents);
    MalesLine (py_count MALE ((fun a => sex (h a)) <$> agents));
    YoungestLine youngest;
    OldestLine oldest;
    AverageAgeLine (div (py_sum (ages h agents)) (of_int (len agents)));
    HivLine 0 (py_count 0 ((fun a => hiv (h a)) <$> agents));
    HivLine 1 (py_count 1 ((fun a => hiv (h a)) <$> agents));
    HivLine 2 (py_count 2 ((fun a => hiv (h a)) <$> agents));
    HivLine 3 (py_count 3 ((fun a => hiv (h a)) <$> agents));
    HivLine 4 (py_count 4 ((fun a => hiv (h a)) <$> agents));
    HivLine 5 (py_count 5 ((fun a => hiv (h a)) <$> agents)) ].

Definition put_lines (ls : list Line) (w : World) : World :=
  mkWorld (heap w) (next_obj w) (py_gen w) (np_gen w) (stdout w ++ ls).

Lemma len_positive {A} (l : list A) : l <> [] -> 0 < len l.
Proof. destruct l; [congruence | intros _; unfold len; simpl; lia]. Qed.

Lemma put_line_first l w : put_line l w = put_lines [l] w.
Proof. reflexivity. Qed.

Lemma put_line_next l ls w :
  put_line l (put_lines ls w) = put_lines (ls ++ [l]) w.
Proof.
  unfold put_line, put_lines; simpl; rewrite <- app_assoc; reflexivity.
Qed.

Lemma print_verbose_nonempty agents w :
  agents <> [] ->
  exists youngest oldest,
    py_min (ages (heap w) agents) = Ok youngest /\
    py_max (ages (heap w) agents) = Ok oldest /\
    print_verbose_agent_info agents w =
    (Ok tt, put_lines (verbose_lines (heap w) agents youngest oldest) w).
Proof.
  intros Hne.
  pose proof (of_int_nonzero _ (len_positive agents Hne)) as Hz.
  destruct agents as [|a l]; [congruence|].
  eexists _, _; split; [reflexivity|]. split; [reflexivity|].
  unfold print_verbose_agent_info, float_truediv, bind at 1, lift.
  rewrite Hz.
  cbv beta iota zeta delta [bind lift print for_each ret].
  cbn [fmap list_fmap py_min py_max].
  rewrite (put_line_first _ w), !put_line_next.
  reflexivity.
Qed.

(** The least and the greatest of a list, by [<] as [min] and [max]
    compare. *)
Lemma py_min_foldl r : forall x,
  let m := foldl (fun m y => if ltb y m then y else m) x r in
  m ∈ x :: r /\
  (Forall (fun y => is_nan y = false) (x :: r) ->
   Forall (fun y => leb m y = true) (x :: r)).
Proof.
  induction r as [|y r IH]; intros x; simpl.
  - split; [left|].
    intros H; constructor; [|constructor].
    apply leb_refl; inversion H; assumption.
  - destruct (IH (if ltb y x then y else x)) as [Hin Hle]; split.
    + destruct (ltb y x); apply elem_of_cons in Hin as [->|Hin];
        try (right; left; reflexivity); try (left; reflexivity);
        right; right; exact Hin.
    + intros Hn.
      apply list.Forall_cons in Hn as [Hx Hn]; apply list.Forall_cons in Hn as [Hy Hn].
      destruct (ltb y x) eqn:Eyx.
      * specialize (Hle ltac:(constructor; assumption)).
        apply list.Forall_cons in Hle as [Hmy Hr].
        constructor; [|constructor; assumption].
        exact (leb_trans _ _ _ Hmy (ltb_leb _ _ Eyx)).
      * specialize (Hle ltac:(constructor; assumption)).
        apply list.Forall_cons in Hle as [Hmx Hr].
        constructor; [exact Hmx|]. constructor; [|exact Hr].
        exact (leb_trans _ _ _ Hmx (leb_total _ _ Hy Hx Eyx)).
Qed.

Lemma py_max_foldl r : forall x,
  let m := foldl (fun m y => if ltb m y then y else m) x r in
  m ∈ x :: r /\
  (Forall (fun y => is_nan y = false) (x :: r) ->
   Forall (fun y => leb y m = true) (x :: r)).
Proof.
  induction r as [|y r IH]; intros x; simpl.
  - split; [left|].
    intros H; constructor; [|constructor].
    apply leb_refl; inversion H; assumption.
  - destruct (IH (if ltb x y then y else x)) as [Hin Hle]; split.
    + destruct (ltb x y); apply elem_of_cons in Hin as [->|Hin];
        try (right; left; reflexivity); try (left; reflexivity);
        right; right; exact Hin.
    + intros Hn.
      apply list.Forall_cons in Hn as [Hx Hn]; apply list.Forall_cons in Hn as [Hy Hn].
      destruct (ltb x y) eqn:Exy.
      * specialize (Hle ltac:(constructor; assumption)).
        apply list.Forall_cons in Hle as [Hmy Hr].
        constructor; [|constructor; assumption].
        exact (leb_trans _ _ _ (ltb_leb _ _ Exy) Hmy).
      * specialize (Hle ltac:(constructor; assumption)).
        apply list.Forall_cons in Hle as [Hmx Hr].
        constructor; [exact Hmx|]. constructor; [|exact Hr].
        exact (leb_trans _ _ _ (leb_total _ _ Hx Hy Exy) Hmx).
Qed.

(** X7.  On a population that is not empty [print_verbose_agent_info]
    returns without raising, changes nothing but the output, and adds
    the eleven lines of the block; the youngest and oldest ages it
    prints are ages of listed agents, and when no age is a NaN they
    are below, respectively above, every listed age. *)
Theorem print_verbose_agent_info_nonempty (agents : list ObjId)
    (w : World) :
  agents <> [] ->
  exists youngest oldest,
    print_verbose_agent_info agents w =
    (Ok tt,
     mkWorld (heap w) (next_obj w) (py_gen w) (np_gen w)
             (stdout w ++ verbose_lines (heap w) agents youngest oldest)) /\
    youngest ∈ ages (heap w) agents /\
    oldest ∈ ages (heap w) agents /\
    (Forall (fun x => is_nan x = false) (ages (heap w) agents) ->
     Forall (fun x => leb youngest x = true /\ leb x oldest = true)
            (ages (heap w) agents)).
Proof.
  intros Hne.
  destruct (print_verbose_nonempty agents w Hne)
    as (youngest & oldest & Emin & Emax & E).
  exists youngest, oldest; split; [exact E|].
  destruct (ages (heap w) agents) as [|x r]; [discriminate Emin|].
  simpl in Emin, Emax; injection Emin as <-; injection Emax as <-.
  destruct (py_min_foldl r x) as [Hin1 Hle1].
  destruct (py_max_foldl r x) as [Hin2 Hle2].
  split; [exact Hin1|]. split; [exact Hin2|].
  intros Hn; specialize (Hle1 Hn); specialize (Hle2 Hn).
  rewrite Forall_forall in *; intros y Hy; split; auto.
Qed.

Lemma py_count_cons v x xs :
  py_count v (x :: xs) = (if decide (x = v) then 1 else 0) + py_count v xs.
Proof.
  unfold py_count, len; rewrite filter_cons.
  destruct (decide (x = v)); simpl length; lia.
Qed.

Lemma stage_counts_total h agents :
  (forall a, a ∈ agents -> 0 <= hiv (h a) <= 5) ->
  foldr Z.add 0 (stage_counts h agents) = len agents.
Proof.
  unfold stage_counts; induction agents as [|a l IH]; intros Hb.
  - reflexivity.
  - assert (Ha : 0 <= hiv (h a) <= 5) by (apply Hb; left).
    assert (Hl : forall b, b ∈ l -> 0 <= hiv (h b) <= 5)
      by (intros b Hin; apply Hb; right; exact Hin).
    specialize (IH Hl).
    simpl in IH |- *; rewrite !py_count_cons.
    change (list_fmap ObjId Z (fun a0 => hiv (h a0)) l)
      with ((fun a0 => hiv (h a0)) <$> l).
    replace (len (a :: l)) with (1 + len l)
      by (unfold len; simpl length; lia).
    repeat destruct (decide _); lia.
Qed.

(** X8.  When every listed agent has a stage between 0 and 5, the six
    stage counts that [print_verbose_agent_info] prints in its first
    line add up to the population size: the histogram misses nobody
    and counts nobody twice. *)
Theorem print_verbose_histogram_total (agents : list ObjId) (w : World) :
  agents <> [] ->
  (forall a, a ∈ agents -> 0 <= hiv (heap w a) <= 5) ->
  exists counts rest,
    stdout (snd (print_verbose_agent_info agents w)) =
      stdout w ++ DebugLine counts :: rest /\
    length counts = 6%nat /\
    foldr Z.add 0 counts = len agents.
Proof.
  intros Hne Hb.
  destruct (print_verbose_nonempty agents w Hne)
    as (youngest & oldest & _ & _ & E).
  rewrite E; simpl.
  eexists _, _; split; [reflexivity|].
  split; [reflexivity | apply stage_counts_total, Hb].
Qed.

(** ** Building the population *)

Lemma Agent_new_spec w :
  exists s a k g n,
    Agent_new w =
    (Ok (next_obj w),
     mkWorld (<[next_obj w := mkAgent s a (Z.min (k - 1) 5)]> (heap w))
             (S (next_obj w)) g n (stdout w)) /\
    MALE <= s <= FEMALE /\ 1 <= k.
Proof.
  unfold Agent_new, Agent_init, random_uniform; simpl.
  pose proof (random_randint_range MALE FEMALE (py_gen w)) as Hs.
  pose proof (numpy_geometric_pos lit_0_9 (np_gen w)) as Hk.
  destruct (random_randint MALE FEMALE (py_gen w)) as [s g1].
  destruct (random_random g1) as [u g2].
  destruct (numpy_geometric lit_0_9 (np_gen w)) as [k n1]; simpl in *.
  eexists s, _, k, g2, n1; split; [reflexivity|].
  split; [apply Hs; unfold MALE, FEMALE; lia | exact Hk].
Qed.

(** An agent as [__init__] leaves it. *)
Definition well_formed (a : Agent) : Prop :=
  (sex a = MALE \/ sex a = FEMALE) /\ 0 <= hiv a <= 5.

Lemma make_agents_well_formed n : forall w,
  exists w',
    make_agents n w = (Ok (seq (next_obj w) n), w') /\
    next_obj w' = (next_obj w + n)%nat /\
    stdout w' = stdout w /\
    (forall b, (b < next_obj w)%nat -> heap w' b = heap w b) /\
    (forall a, (next_obj w <= a < next_obj w + n)%nat ->
               well_formed (heap w' a)).
Proof.
  induction n as [|n IH]; intros w.
  - exists w; simpl; rewrite Nat.add_0_r.
    repeat split; intros; lia.
  - destruct (Agent_new_spec w) as (s & a & k & g & np & E1 & Hs & Hk).
    set (w1 := mkWorld _ _ _ _ _) in E1.
    destruct (IH w1) as (w2 & E2 & N2 & O2 & F2 & W2).
    exists w2; simpl make_agents.
    rewrite (bind_ok _ _ _ _ _ E1), (bind_ok _ _ _ _ _ E2).
    subst w1; simpl in *.
    split; [reflexivity|]. split; [lia|]. split; [exact O2|]. split.
    + intros b Hb; rewrite F2 by lia.
      apply fn_lookup_insert_ne; lia.
    + intros b Hb; destruct (decide (b = next_obj w)) as [->|Hne].
      * rewrite F2 by lia; rewrite fn_lookup_insert.
        unfold well_formed, MALE, FEMALE in *; simpl; lia.
      * apply W2; lia.
Qed.

(** X9.  Building a population of [n] agents never raises and prints
    nothing; it returns [n] fresh identities, all different, leaves
    the objects that existed before as they were, and every agent it
    creates has sex MALE or FEMALE and a stage between 0 and 5. *)
Theorem make_agents_population (n : nat) (w : World) :
  exists agents w',
    make_agents n w = (Ok agents, w') /\
    length agents = n /\
    NoDup agents /\
    stdout w' = stdout w /\
    (forall a, a ∈ agents ->
       (next_obj w <= a)%nat /\
       (sex (heap w' a) = MALE \/ sex (heap w' a) = FEMALE) /\
       0 <= hiv (heap w' a) <= 5) /\
    (forall b, (b < next_obj w)%nat -> heap w' b = heap w b).
Proof.
  destruct (make_agents_well_formed n w) as (w' & E & _ & O & F & W).
  exists (seq (next_obj w) n), w'.
  split; [exact E|]. split; [apply length_seq|]. split; [apply NoDup_seq|].
  split; [exact O|]. split; [|exact F].
  intros a Ha; apply elem_of_seq in Ha.
  split; [lia|]. apply W; lia.
Qed.

(** ** The whole program *)

Lemma reports_of_reports size lines :
  Forall (report_of_size size) lines ->
  length (reports lines) = length lines.
Proof.
  induction 1 as [|l ls (d & c & -> & _) _ IH]; [reflexivity|].
  change (S (length (reports ls)) = S (length ls)).
  rewrite IH; reflexivity.
Qed.

Lemma reports_verbose h agents y o : reports (verbose_lines h agents y o) = [].
Proof. reflexivity. Qed.

Lemma main_with_summary parameters size w ratio n :
  (0 < size)%nat ->
  float_truediv (NUM_YEARS parameters) (TIME_STEP parameters) = Ok ratio ->
  int_of_float ratio = Ok n ->
  exists w' lines,
    main_with parameters size w = (Ok tt, w') /\
    stdout w' = stdout w ++ lines /\
    length lines = (11 + Z.to_nat n + 11)%nat /\
    length (reports lines) = Z.to_nat n /\
    next_obj w' = (next_obj w + size)%nat.
Proof.
  intros Hsize Hr Hn.
  destruct (make_agents_well_formed size w) as (w1 & E1 & N1 & O1 & _).
  assert (Hne : seq (next_obj w) size <> [])
    by (destruct size; [lia | discriminate]).
  set (agents := seq (next_obj w) size) in *.
  destruct (print_verbose_nonempty agents w1 Hne) as (y1 & o1 & _ & _ & E2).
  set (w2 := put_lines _ w1) in E2.
  destruct (simulate_loop_lines parameters (Z.to_nat n) 0 agents w2 Hne)
    as (agents' & w3 & sim & E3 & Hp & O3 & Hlen & _).
  destruct (simulate_loop_summary parameters (Z.to_nat n) 0 agents w2)
    as ((_ & _ & _ & N3) & _ & sim' & O3' & Hrep).
  rewrite E3 in O3', N3; simpl in O3', N3.
  rewrite O3 in O3'; apply app_inv_head in O3'; subst sim'.
  destruct (print_verbose_nonempty agents' w3 (perm_nonempty _ _ Hp Hne))
    as (y2 & o2 & _ & _ & E4).
  eexists _, (verbose_lines (heap w1) agents y1 o1 ++ sim ++
              verbose_lines (heap w3) agents' y2 o2).
  unfold main_with.
  rewrite (bind_ok _ _ _ _ _ E1), (bind_ok _ _ _ _ _ E2).
  assert (E3' : simulate agents parameters w2 = (Ok agents', w3))
    by (rewrite simulate_unfold, Hr, Hn; exact E3).
  rewrite (bind_ok _ _ _ _ _ E3').
  split; [exact E4|]. simpl.
  split; [rewrite O3; subst w2; simpl; rewrite O1, <- !app_assoc;
          reflexivity|].
  split; [rewrite !length_app, Hlen; simpl; lia|].
  split; [|rewrite N3; subst w2; simpl; exact N1].
  unfold reports at 1; rewrite !omap_app.
  fold (reports (verbose_lines (heap w1) agents y1 o1)).
  fold (reports sim).
  fold (reports (verbose_lines (heap w3) agents' y2 o2)).
  rewrite !reports_verbose, app_nil_r; simpl.
  rewrite (reports_of_reports _ _ Hrep); exact Hlen.
Qed.


(** X11.  The script as it is written, with whatever the two random
    libraries draw and from any starting state, returns without
    raising; it creates 100 agents, runs 730 steps and prints 752
    lines, 730 of them report lines. *)
Theorem script_runs (w : World) :
  exists w' lines,
    script w = (Ok tt, w') /\
    stdout w' = stdout w ++ lines /\
    length lines = 752%nat /\
    length (reports lines) = 730%nat /\
    next_obj w' = (next_obj w + 100)%nat.
Proof.
  unfold script, main, seed_generators, bind at 1.
  unfold bind at 1, lift.
  set (time_step := div one YEAR).
  assert (Ets : float_truediv one YEAR = Ok time_step) by reflexivity.
  rewrite Ets.
  set (parameters := mkParameters _ _ _ _ _).
  set (w0 := mkWorld _ _ _ _ _).
  assert (Hr : float_truediv (NUM_YEARS parameters) (TIME_STEP parameters) =
               Ok (div lit_2 time_step)) by reflexivity.
  assert (Hn : int_of_float (div lit_2 time_step) = Ok 730)
    by (vm_compute; reflexivity).
  destruct (main_with_summary parameters 100 w0 _ 730 ltac:(lia) Hr Hn)
    as (w' & lines & E & O & Hlen & Hrep & N).
  exists w', lines; repeat split; assumption.
Qed.

End Beyond.

(** * Two runs of the script *)

Section Determinism.

Context `{L : RandomLib}.

(** Two worlds agree on [l] when they hold the same objects under the
    identities of [l], the same [random] generator and the same
    output.  Nothing is asked of the other objects. *)
Definition agree (l : list ObjId) (w1 w2 : World) : Prop :=
  (forall a, a ∈ l -> heap w1 a = heap w2 a) /\
  py_gen w1 = py_gen w2 /\
  stdout w1 = stdout w2.

(** Two outcomes are alike when they return or raise the same and
    leave worlds that agree. *)
Definition alike {A} (l : list ObjId) (c1 c2 : result A * World) : Prop :=
  fst c1 = fst c2 /\ agree l (snd c1) (snd c2).

Lemma infected_count_agree h1 h2 (cur : list ObjId) :
  (forall a, a ∈ cur -> h1 a = h2 a) ->
  infected_count h1 cur = infected_count h2 cur.
Proof.
  induction cur as [|a cur IH]; intros H; [reflexivity|].
  rewrite !infected_count_cons, (H a) by (left; reflexivity).
  rewrite IH by (intros b Hb; apply H; right; exact Hb); reflexivity.
Qed.

Lemma fmap_agree {B} (f : Agent -> B) h1 h2 (cur : list ObjId) :
  (forall a, a ∈ cur -> h1 a = h2 a) ->
  (fun a => f (h1 a)) <$> cur = (fun a => f (h2 a)) <$> cur.
Proof.
  induction cur as [|a cur IH]; intros H; [reflexivity|].
  rewrite !fmap_cons, (H a) by (left; reflexivity).
  rewrite IH by (intros b Hb; apply H; right; exact Hb); reflexivity.
Qed.

(** What the two events make of one agent, and of the generator. *)
Definition agent_after (parameters : Parameters) (prevalence : float)
    (ag : Agent) (g : PyGen) : Agent :=
  set_age (add (age ag) (TIME_STEP parameters))
    (if hiv ag =? 0
     then if ltb (fst (random_random g))
                 (mul (mul (FORCE_INFECTION parameters)
                           (PROB_NEW_PARTNER parameters)) prevalence)
          then set_hiv 1 ag else ag
     else ag).

Definition gen_after (ag : Agent) (g : PyGen) : PyGen :=
  if hiv ag =? 0 then snd (random_random g) else g.

Lemma agent_events_exact parameters prevalence a w :
  let w' := snd (agent_events parameters prevalence a w) in
  fst (agent_events parameters prevalence a w) = Ok tt /\
  (forall b, heap w' b =
             if decide (b = a)
             then agent_after parameters prevalence (heap w a) (py_gen w)
             else heap w b) /\
  py_gen w' = gen_after (heap w a) (py_gen w) /\
  stdout w' = stdout w.
Proof.
  unfold agent_events, bind, infection_event, age_event, agent_after,
    gen_after.
  destruct (hiv (heap w a) =? 0).
  - destruct (random_random (py_gen w)) as [u g]; simpl fst; simpl snd.
    destruct (ltb u _); simpl; (split; [reflexivity|]);
      (split; [|split; reflexivity]);
      intros b; destruct (decide (b = a)) as [->|Hb];
      rewrite ?fn_lookup_insert; try reflexivity;
      rewrite !fn_lookup_insert_ne by congruence; reflexivity.
  - simpl; split; [reflexivity|]. split; [|split; reflexivity].
    intros b; destruct (decide (b = a)) as [->|Hb];
      rewrite ?fn_lookup_insert; try reflexivity;
      rewrite !fn_lookup_insert_ne by congruence; reflexivity.
Qed.

Lemma agent_events_agree parameters prevalence l a w1 w2 :
  a ∈ l -> agree l w1 w2 ->
  alike l (agent_events parameters prevalence a w1)
          (agent_events parameters prevalence a w2).
Proof.
  intros Ha (H & G & O).
  destruct (agent_events_exact parameters prevalence a w1)
    as (R1 & H1 & G1 & O1).
  destruct (agent_events_exact parameters prevalence a w2)
    as (R2 & H2 & G2 & O2).
  split; [congruence|]. split; [|split; [|congruence]].
  - intros b Hb; rewrite H1, H2, (H a Ha), G.
    destruct (decide (b = a)); [reflexivity | apply H, Hb].
  - rewrite G1, G2, (H a Ha), G; reflexivity.
Qed.

Lemma agents_loop_agree parameters prevalence l cur : forall w1 w2,
  (forall a, a ∈ cur -> a ∈ l) -> agree l w1 w2 ->
  alike l (for_each cur (agent_events parameters prevalence) w1)
          (for_each cur (agent_events parameters prevalence) w2).
Proof.
  induction cur as [|a cur IH]; intros w1 w2 Hsub Hag.
  - split; [reflexivity | exact Hag].
  - destruct (agent_events_agree parameters prevalence l a w1 w2
                (Hsub a ltac:(left)) Hag) as [Hr Hag'].
    destruct (agent_events_exact parameters prevalence a w1) as (R1 & _).
    destruct (agent_events_exact parameters prevalence a w2) as (R2 & _).
    simpl for_each; unfold bind.
    destruct (agent_events parameters prevalence a w1) as [r1 w1'].
    destruct (agent_events parameters prevalence a w2) as [r2 w2'].
    simpl in *; subst r1 r2.
    apply IH; [|exact Hag'].
    intros b Hb; apply Hsub; right; exact Hb.
Qed.

Lemma simulate_step_agree parameters i l cur w1 w2 :
  (forall a, a ∈ cur -> a ∈ l) -> agree l w1 w2 ->
  alike l (simulate_step parameters i cur w1)
          (simulate_step parameters i cur w2) /\
  (forall cur', fst (simulate_step parameters i cur w1) = Ok cur' ->
                forall a, a ∈ cur' -> a ∈ l).
Proof.
  intros Hsub (H & G & O).
  destruct (decide (cur = [])) as [->|Hne].
  - rewrite !simulate_step_nil, G; simpl.
    split; [|discriminate].
    split; [reflexivity|]. split; [exact H|]. split; [reflexivity | exact O].
  - destruct (simulate_step_nonempty parameters i cur w1 Hne)
      as (cur1 & g1 & v1 & Es1 & Hp1 & E1 & S1).
    destruct (simulate_step_nonempty parameters i cur w2 Hne)
      as (cur2 & g2 & v2 & Es2 & Hp2 & E2 & S2).
    rewrite G, Es2 in Es1; injection Es1 as <- <-.
    assert (Hsub' : forall a, a ∈ cur2 -> a ∈ l)
      by (intros a Ha; apply Hsub; rewrite <- Hp2; exact Ha).
    assert (Hprev : prevalence_of (heap w1) cur = prevalence_of (heap w2) cur).
    { unfold prevalence_of.
      rewrite (infected_count_agree (heap w1) (heap w2) cur); [reflexivity|].
      intros a Ha; apply H, Hsub, Ha. }
    rewrite Hprev in E1.
    destruct (agents_loop_agree parameters (prevalence_of (heap w2) cur)
                l cur2 (set_py_gen g2 w1) (set_py_gen g2 w2) Hsub')
      as [_ (H' & G' & O')].
    { split; [exact H|]. split; [reflexivity | exact O]. }
    rewrite E1, E2 in H', G', O'; simpl in H', G', O'.
    assert (Hc : infected_count (heap v1) cur = infected_count (heap v2) cur)
      by (apply infected_count_agree; intros a Ha; apply H', Hsub, Ha).
    rewrite S1, S2; simpl; split.
    + split; [reflexivity|]. split; [exact H'|]. split; [exact G'|].
      unfold put_line, prevalence_of; cbn [snd stdout].
      rewrite Hc, O'; reflexivity.
    + intros cur' [= <-]; exact Hsub'.
Qed.

Lemma simulate_loop_agree parameters l n : forall i cur w1 w2,
  (forall a, a ∈ cur -> a ∈ l) -> agree l w1 w2 ->
  alike l (for_range n i (simulate_step parameters) cur w1)
          (for_range n i (simulate_step parameters) cur w2) /\
  (forall cur', fst (for_range n i (simulate_step parameters) cur w1) =
                Ok cur' -> forall a, a ∈ cur' -> a ∈ l).
Proof.
  induction n as [|n IH]; intros i cur w1 w2 Hsub Hag.
  - simpl; split; [split; [reflexivity | exact Hag]|].
    intros cur' [= <-]; exact Hsub.
  - destruct (simulate_step_agree parameters i l cur w1 w2 Hsub Hag)
      as [[Hr Hag'] Hsub'].
    simpl for_range; unfold bind.
    destruct (simulate_step parameters i cur w1) as [r1 v1].
    destruct (simulate_step parameters i cur w2) as [r2 v2].
    simpl in Hr, Hag', Hsub'; subst r2.
    destruct r1 as [cur1|e].
    + apply IH; [exact (Hsub' cur1 eq_refl) | exact Hag'].
    + split; [split; [reflexivity | exact Hag'] | discriminate].
Qed.

Lemma simulate_agree parameters l cur w1 w2 :
  (forall a, a ∈ cur -> a ∈ l) -> agree l w1 w2 ->
  alike l (simulate cur parameters w1) (simulate cur parameters w2) /\
  (forall cur', fst (simulate cur parameters w1) = Ok cur' ->
                forall a, a ∈ cur' -> a ∈ l).
Proof.
  intros Hsub Hag; rewrite !simulate_unfold.
  destruct (float_truediv _ _) as [ratio|e];
    [|split; [split; [reflexivity | exact Hag] | discriminate]].
  destruct (int_of_float ratio) as [n|e];
    [|split; [split; [reflexivity | exact Hag] | discriminate]].
  apply simulate_loop_agree; assumption.
Qed.

Lemma verbose_lines_agree h1 h2 cur y o :
  (forall a, a ∈ cur -> h1 a = h2 a) ->
  verbose_lines h1 cur y o = verbose_lines h2 cur y o.
Proof.
  intros H; unfold verbose_lines, stage_counts, ages.
  rewrite (fmap_agree hiv h1 h2 cur H), (fmap_agree sex h1 h2 cur H),
    (fmap_agree age h1 h2 cur H); reflexivity.
Qed.

Lemma print_verbose_agree l cur w1 w2 :
  (forall a, a ∈ cur -> a ∈ l) -> agree l w1 w2 ->
  alike l (print_verbose_agent_info cur w1)
          (print_verbose_agent_info cur w2).
Proof.
  intros Hsub (H & G & O).
  destruct (decide (cur = [])) as [->|Hne].
  - split; [reflexivity|]. split; [exact H|]. split; assumption.
  - assert (Hcur : forall a, a ∈ cur -> heap w1 a = heap w2 a)
      by (intros a Ha; apply H, Hsub, Ha).
    destruct (print_verbose_nonempty cur w1 Hne)
      as (y1 & o1 & Emin1 & Emax1 & E1).
    destruct (print_verbose_nonempty cur w2 Hne)
      as (y2 & o2 & Emin2 & Emax2 & E2).
    unfold ages in *.
    rewrite (fmap_agree age _ _ cur Hcur) in Emin1, Emax1.
    rewrite Emin2 in Emin1; injection Emin1 as <-.
    rewrite Emax2 in Emax1; injection Emax1 as <-.
    rewrite E1, E2, (verbose_lines_agree _ _ cur y2 o2 Hcur).
    split; [reflexivity|]. split; [exact H|]. split; [exact G|].
    simpl; rewrite O; reflexivity.
Qed.

(** Two worlds start alike when they hold the same allocator, the same
    two generators and the same output; their objects may differ. *)
Definition start_alike (w1 w2 : World) : Prop :=
  next_obj w1 = next_obj w2 /\
  py_gen w1 = py_gen w2 /\
  np_gen w1 = np_gen w2 /\
  stdout w1 = stdout w2.

Lemma Agent_new_agree w1 w2 :
  start_alike w1 w2 ->
  fst (Agent_new w1) = Ok (next_obj w1) /\
  fst (Agent_new w2) = Ok (next_obj w1) /\
  start_alike (snd (Agent_new w1)) (snd (Agent_new w2)) /\
  next_obj (snd (Agent_new w1)) = S (next_obj w1) /\
  heap (snd (Agent_new w1)) (next_obj w1) =
  heap (snd (Agent_new w2)) (next_obj w1).
Proof.
  intros (N & G & P & O).
  unfold Agent_new, Agent_init, random_uniform; simpl.
  rewrite <- N, <- G, <- P, <- O.
  destruct (random_randint MALE FEMALE (py_gen w1)) as [s g1].
  destruct (random_random g1) as [u g2].
  destruct (numpy_geometric lit_0_9 (np_gen w1)) as [k n1]; simpl.
  rewrite !fn_lookup_insert.
  repeat split; reflexivity.
Qed.

Lemma make_agents_agree n : forall w1 w2,
  start_alike w1 w2 ->
  exists v1 v2,
    make_agents n w1 = (Ok (seq (next_obj w1) n), v1) /\
    make_agents n w2 = (Ok (seq (next_obj w1) n), v2) /\
    start_alike v1 v2 /\
    (forall a, (next_obj w1 <= a < next_obj w1 + n)%nat ->
               heap v1 a = heap v2 a).
Proof.
  induction n as [|n IH]; intros w1 w2 Hst.
  - exists w1, w2; simpl.
    split; [reflexivity|]. split; [reflexivity|]. split; [exact Hst|].
    intros a Ha; lia.
  - destruct (Agent_new_agree w1 w2 Hst) as (R1 & R2 & Hst' & N1 & Hh).
    destruct (Agent_new w1) as [r1 u1] eqn:E1.
    destruct (Agent_new w2) as [r2 u2] eqn:E2.
    simpl in R1, R2, Hst', N1, Hh; subst r1 r2.
    destruct (IH u1 u2 Hst') as (v1 & v2 & M1 & M2 & Hst'' & Hnew).
    destruct (make_agents_well_formed n u1) as (v1' & M1' & _ & _ & F1 & _).
    destruct (make_agents_well_formed n u2) as (v2' & M2' & _ & _ & F2 & _).
    rewrite M1 in M1'; injection M1' as <-.
    destruct Hst' as (N' & _).
    rewrite <- N', M2 in M2'; injection M2' as <-.
    exists v1, v2; simpl make_agents.
    rewrite (bind_ok _ _ _ _ _ E1), (bind_ok _ _ _ _ _ M1).
    rewrite (bind_ok _ _ _ _ _ E2), (bind_ok _ _ _ _ _ M2).
    rewrite N1; unfold ret.
    split; [reflexivity|]. split; [reflexivity|]. split; [exact Hst''|].
    intros a Ha; destruct (decide (a = next_obj w1)) as [->|Hne].
    + rewrite F1, F2 by lia; exact Hh.
    + apply Hnew; lia.
Qed.

(** Two blocks that are alike in their first statement and, for every
    value it can return, in the rest, are alike. *)
Lemma bind_alike {A B} l (m : M A) (k : A -> M B) (P : A -> Prop) w1 w2 :
  alike l (m w1) (m w2) ->
  (forall a, fst (m w1) = Ok a -> P a) ->
  (forall a v1 v2, P a -> agree l v1 v2 -> alike l (k a v1) (k a v2)) ->
  alike l (bind m k w1) (bind m k w2).
Proof.
  intros [Hr Hag] HP Hk; unfold bind.
  destruct (m w1) as [r1 v1]; destruct (m w2) as [r2 v2].
  simpl in Hr, Hag, HP; subst r2.
  destruct r1 as [a|e]; [|split; [reflexivity | exact Hag]].
  apply Hk; [apply HP; reflexivity | exact Hag].
Qed.

Lemma main_with_agree parameters size w1 w2 :
  start_alike w1 w2 ->
  fst (main_with parameters size w1) = fst (main_with parameters size w2) /\
  stdout (snd (main_with parameters size w1)) =
  stdout (snd (main_with parameters size w2)).
Proof.
  intros Hst.
  destruct (make_agents_agree size w1 w2 Hst)
    as (v1 & v2 & M1 & M2 & (_ & G & _ & O) & Hnew).
  set (l := seq (next_obj w1) size) in *.
  assert (Hag : agree l v1 v2).
  { split; [|split; assumption].
    intros a Ha; apply Hnew; subst l; apply elem_of_seq in Ha; lia. }
  unfold main_with.
  rewrite (bind_ok _ _ _ _ _ M1), (bind_ok _ _ _ _ _ M2).
  assert (Hal : alike l
            ((print_verbose_agent_info l ;;
              do agents' <- simulate l parameters;
              print_verbose_agent_info agents') v1)
            ((print_verbose_agent_info l ;;
              do agents' <- simulate l parameters;
              print_verbose_agent_info agents') v2)).
  { apply (bind_alike l _ _ (fun _ => True)).
    - apply print_verbose_agree; [intros a Ha; exact Ha | exact Hag].
    - intros; exact I.
    - intros _ u1 u2 _ Hag1.
      apply (bind_alike l _ _ (fun cur => forall a, a ∈ cur -> a ∈ l)).
      + apply simulate_agree; [intros a Ha; exact Ha | exact Hag1].
      + apply (simulate_agree parameters l l u1 u2);
          [intros a Ha; exact Ha | exact Hag1].
      + intros cur x1 x2 Hsub Hag2.
        apply print_verbose_agree; assumption. }
  destruct Hal as [Hr (_ & _ & Ho)]; split; assumption.
Qed.

(** C3.  Two runs of the script with the same seed, parameters and
    population size print the same lines, hence the same sequence of
    (date, infected count, prevalence) tuples, and end the same way,
    in whatever state each process starts: the objects it holds and
    the states of its two generators may differ between the runs, as
    long as the allocator hands out the same identities and the output
    starts the same.  The script seeds both generators, creates its
    agents afresh, and the statistics, the simulation and the reports
    read no other object. *)
Theorem runs_deterministic (seed : Z) (parameters : Parameters)
    (size : nat) (w1 w2 : World) :
  next_obj w1 = next_obj w2 ->
  stdout w1 = stdout w2 ->
  let run1 := script_with seed parameters size w1 in
  let run2 := script_with seed parameters size w2 in
  reports (stdout (snd run1)) = reports (stdout (snd run2)) /\
  stdout (snd run1) = stdout (snd run2) /\
  fst run1 = fst run2.
Proof.
  intros N O run1 run2.
  assert (H : fst run1 = fst run2 /\ stdout (snd run1) = stdout (snd run2)).
  { subst run1 run2; unfold script_with, seed_generators, bind at 1 3.
    apply main_with_agree.
    split; [exact N|]. split; [reflexivity|]. split; [reflexivity | exact O]. }
  destruct H as [Hr Ho]; rewrite Ho; repeat split; assumption.
Qed.

End Determinism.

(** A second start of the process: other objects in the store, other
    generator states. *)
Definition other_world : @World CounterLib.counter_lib :=
  @mkWorld CounterLib.counter_lib (fun _ => mkAgent FEMALE lit_20 3)
           2%nat 7%nat 5%nat [].

Lemma runs_deterministic_witness :
  next_obj demo_world = next_obj other_world /\
  stdout demo_world = stdout other_world /\
  reports (stdout (snd (script_with 5 demo_parameters 3 demo_world))) =
  reports (stdout (snd (script_with 5 demo_parameters 3 other_world))) /\
  stdout (snd (script_with 5 demo_parameters 3 demo_world)) =
  stdout (snd (script_with 5 demo_parameters 3 other_world)) /\
  fst (script_with 5 demo_parameters 3 demo_world) =
  fst (script_with 5 demo_parameters 3 other_world) /\
  length (reports (stdout (snd (script_with 5 demo_parameters 3
                                            other_world)))) = 2%nat.
Proof.
  assert (N : next_obj demo_world = next_obj other_world) by reflexivity.
  assert (O : stdout demo_world = stdout other_world) by reflexivity.
  split; [exact N|]. split; [exact O|].
  destruct (runs_deterministic 5 demo_parameters 3 demo_world other_world
              N O) as (Hrep & Hout & Hres).
  split; [exact Hrep|]. split; [exact Hout|]. split; [exact Hres|].
  rewrite <- Hrep; vm_compute; reflexivity.
Defined.

(** The run above does print: two diagnostic blocks around two report
    lines. *)
Example demo_script :
  length (stdout (snd (script_with 5 demo_parameters 3 demo_world))) = 24%nat /\
  length (reports (stdout (snd (script_with 5 demo_parameters 3
                                            demo_world)))) = 2%nat.
Proof. vm_compute; split; reflexivity. Qed.

(** ** Concrete runs of the further properties *)

(** Force of infection and partner rate of 2.0 each: with half of the
    population infected the risk is 2.0. *)
Definition certain_parameters : Parameters :=
  mkParameters lit_2 one lit_2015 lit_2 lit_2.

Lemma pair_of_fst {A B} (x : A * B) (a : A) : fst x = a -> x = (a, snd x).
Proof. intros <-; destruct x; reflexivity. Qed.

Lemma simulate_reorders_population_witness :
  simulate [0; 1]%nat demo_parameters demo_world =
    (Ok [0; 1]%nat, snd (simulate [0; 1]%nat demo_parameters demo_world)) /\
  [0; 1]%nat ≡ₚ [0; 1]%nat /\ length [0; 1]%nat = length [0; 1]%nat.
Proof.
  assert (E : simulate [0; 1]%nat demo_parameters demo_world =
              (Ok [0; 1]%nat,
               snd (simulate [0; 1]%nat demo_parameters demo_world)))
    by (apply pair_of_fst; vm_compute; reflexivity).
  split; [exact E|].
  exact (simulate_reorders_population _ _ _ _ _ E).
Defined.

Lemma simulate_no_source_no_infection_witness :
  infected_count (heap demo_world) [0]%nat = 0 /\
  forall a,
    hiv (heap (snd (simulate [0]%nat demo_parameters demo_world)) a) =
    hiv (heap demo_world a).
Proof.
  assert (H : infected_count (heap demo_world) [0]%nat = 0) by reflexivity.
  split; [exact H|].
  exact (proj1 (simulate_no_source_no_infection [0]%nat demo_parameters
                  demo_world H)).
Defined.

Lemma step_certain_infection_witness :
  leb one (mul (mul (FORCE_INFECTION certain_parameters)
                    (PROB_NEW_PARTNER certain_parameters))
               (prevalence_of (heap demo_world) [0; 1]%nat)) = true /\
  0%nat ∈ [0; 1]%nat /\
  hiv (heap (snd (simulate_step certain_parameters 0 [0; 1]%nat demo_world))
            0%nat) =
  (if decide (hiv (heap demo_world 0%nat) = 0) then 1
   else hiv (heap demo_world 0%nat)).
Proof.
  assert (Hr : leb one (mul (mul (FORCE_INFECTION certain_parameters)
                                 (PROB_NEW_PARTNER certain_parameters))
                            (prevalence_of (heap demo_world) [0; 1]%nat)) =
               true) by (vm_compute; reflexivity).
  assert (Hin : 0%nat ∈ [0; 1]%nat) by compute_done.
  split; [exact Hr|]. split; [exact Hin|].
  exact (step_certain_infection certain_parameters 0 [0; 1]%nat demo_world
           0%nat Hr Hin).
Defined.

Lemma print_verbose_agent_info_nonempty_witness :
  [0; 1]%nat <> [] /\
  fst (print_verbose_agent_info [0; 1]%nat demo_world) = Ok tt.
Proof.
  assert (Hne : [0; 1]%nat <> []) by discriminate.
  split; [exact Hne|].
  destruct (print_verbose_agent_info_nonempty [0; 1]%nat demo_world Hne)
    as (youngest & oldest & E & _).
  rewrite E; reflexivity.
Defined.

Lemma print_verbose_histogram_total_witness :
  [0; 1]%nat <> [] /\
  (forall a, a ∈ [0; 1]%nat -> 0 <= hiv (heap demo_world a) <= 5) /\
  exists counts rest,
    stdout (snd (print_verbose_agent_info [0; 1]%nat demo_world)) =
      stdout demo_world ++ DebugLine counts :: rest /\
    length counts = 6%nat /\
    foldr Z.add 0 counts = len [0; 1]%nat.
Proof.
  assert (Hne : [0; 1]%nat <> []) by discriminate.
  assert (Hb : forall a, a ∈ [0; 1]%nat ->
                         0 <= hiv (heap demo_world a) <= 5).
  { intros a Ha; apply elem_of_cons in Ha as [->|Ha]; [simpl; lia|].
    apply elem_of_cons in Ha as [->|Ha]; [simpl; lia | inversion Ha]. }
  split; [exact Hne|]. split; [exact Hb|].
  exact (print_verbose_histogram_total [0; 1]%nat demo_world Hne Hb).
Defined.

